(** * Sayonara ChatBot: streaming, retrieval and session store

    A shallow embedding of the JavaScript sources of the chatbot:

    - [Str]: the string primitives the code relies on
      ([split(' ')], [join(' ')], [includes], [toLowerCase]);
    - [Js]: the array primitives ([sort] with a comparator, [slice]);
    - [Server]: the Express backend with the knowledge base, the session
      store, [generateGeminiResponse] and its endpoints;
    - [SimpleServer]: the stand-alone [server.js];
    - [Client]: [ChatbotAPI.demoStream], the timer-driven simulated stream;
    - [RagEndpoint], [UploadEndpoint]: two more endpoints of the backend;
    - [Api]: the requests of [ChatbotAPI] ([sendMessage], [streamMessage],
      [queryRAG]) and the JSON they read;
    - [Ui]: the state of the chat window and of the sidebar.

    JavaScript strings are modelled as [string] (sequences of 8-bit
    characters); [toLowerCase] lowers the ASCII letters and leaves every
    other character alone.  Numbers that the code only compares, adds or
    subtracts are [Z]; the sampling temperature, which is only tested for
    truthiness and passed on, is a rational [Q]; dates are [Z]
    milliseconds. *)

From Stdlib Require Import Ascii String QArith.
From stdpp Require Import gmap strings list fin_maps sorting pretty.

Local Open Scope Z_scope.

(** ** String primitives *)

Module Str.

(** [c.toLowerCase()] on one character. *)
Definition lowerChar (c : ascii) : ascii :=
  let n := nat_of_ascii c in
  if ((65 <=? n) && (n <=? 90))%nat then ascii_of_nat (n + 32) else c.

(** [s.toLowerCase()]. *)
Fixpoint toLowerCase (s : string) : string :=
  match s with
  | EmptyString => EmptyString
  | String c s' => String (lowerChar c) (toLowerCase s')
  end.

(** [s.startsWith(p)]; the helper behind [includes]. *)
Fixpoint startsWith (p s : string) : bool :=
  match p, s with
  | EmptyString, _ => true
  | String _ _, EmptyString => false
  | String a p', String b s' => bool_decide (a = b) && startsWith p' s'
  end.

(** [s.includes(sub)]: [sub] occurs in [s] at some position. *)
Fixpoint includes (s sub : string) : bool :=
  startsWith sub s ||
  match s with
  | EmptyString => false
  | String _ s' => includes s' sub
  end.

(** [s.split(' ')]: cut at every single space character; the result is
    never empty ([''.split(' ')] is [['']]) and consecutive spaces give
    empty pieces. *)
Fixpoint split (s : string) : list string :=
  match s with
  | EmptyString => [EmptyString]
  | String c s' =>
      if bool_decide (c = " "%char) then EmptyString :: split s'
      else match split s' with
           | w :: ws => String c w :: ws
           | [] => [String c EmptyString]
           end
  end.

(** [pieces.join(sep)]. *)
Fixpoint join (sep : string) (pieces : list string) : string :=
  match pieces with
  | [] => EmptyString
  | [w] => w
  | w :: ws => w +:+ sep +:+ join sep ws
  end.

(** [s.substring(start)]: what follows the first [start] characters. *)
Fixpoint substringFrom (start : nat) (s : string) : string :=
  match start, s with
  | O, _ => s
  | S _, EmptyString => EmptyString
  | S n, String _ s' => substringFrom n s'
  end.

(** [s.substring(0, stop)]: the first [stop] characters, or all of [s]
    when it is shorter. *)
Fixpoint substringTo (stop : nat) (s : string) : string :=
  match stop, s with
  | O, _ => EmptyString
  | S _, EmptyString => EmptyString
  | S n, String c s' => String c (substringTo n s')
  end.

End Str.

(** ** Array primitives *)

Module Js.

Section Sort.
Context {A : Type}.
Variable compareFn : A -> A -> Z.

(** Put [x], which stood before every element of the already sorted
    [l], at its place: it moves behind [y] only when
    [compareFn x y > 0]. *)
Fixpoint insert (x : A) (l : list A) : list A :=
  match l with
  | [] => [x]
  | y :: l' => if 0 <? compareFn x y then y :: insert x l' else x :: l
  end.

(** [arr.sort(compareFn)]: the sort of ECMAScript is stable. *)
Fixpoint sort (l : list A) : list A :=
  match l with
  | [] => []
  | x :: l' => insert x (sort l')
  end.
End Sort.

(** [arr.slice(0, n)]. *)
Definition slice0 {A} (n : nat) (l : list A) : list A := take n l.

End Js.

(** ** Vocabulary of the specification *)

Module Spec.

(** A stream event, [{partialContent, isFinal}]. *)
Record StreamEvent := {
  partialContent : string;
  isFinal : bool
}.

(** The non-final events for the first [m] words: the cumulative
    prefixes of 1..[m] words joined by single spaces. *)
Definition prefixes (ws : list string) (m : nat) : list StreamEvent :=
  map (fun k => {| partialContent := Str.join " " (take k ws);
                   isFinal := false |})
      (seq 1 m).

Definition final (text : string) : StreamEvent :=
  {| partialContent := text; isFinal := true |}.

(** A simulated stream as the specification describes it: one
    non-final event per word, then one final event with the full
    text.  The words are the pieces between single spaces, as the code
    cuts them. *)
Definition simulated (text : string) : list StreamEvent :=
  let ws := Str.split text in
  prefixes ws (length ws) ++ [final text].

(** The keywords that occur, lower-cased, in the lower-cased query. *)
Definition matchedKeywords (queryLower : string) (kws : list string)
    : list string :=
  filter (fun kw => Str.includes queryLower (Str.toLowerCase kw) = true) kws.

End Spec.

(** ** The Express backend *)

Module Server.

(** *** RAG knowledge base *)

Record KnowledgeEntry := {
  content : string;
  keywords : list string
}.

(** [Object.entries(knowledgeBase)]: the topics are not integer-like
    keys, so the entries come in the order they were written. *)
Definition knowledgeBase : list (string * KnowledgeEntry) :=
  [ ("NIST 800-88",
     {| content := "NIST 800-88 Rev.1 provides comprehensive guidelines for media sanitization. 
        It defines three types of sanitization: Clear (logical techniques), Purge (physical or logical 
        techniques that render data recovery infeasible), and Destroy (physical destruction of media).
        The Sayonara platform implements these standards with military-grade security.";
        keywords := ["NIST"; "standards"; "sanitization"; "security"; "guidelines"] |});
    ("Blockchain Verification",
     {| content := "Our blockchain verification system uses Ethereum's Sepolia testnet to create 
        tamper-proof certificates for each data wipe. Each certificate contains a cryptographic 
        hash of the wiping process, timestamp, device identifier, and verification status. 
        This provides immutable proof of compliance that can be audited by third parties.";
        keywords := ["blockchain"; "verification"; "certificate"; "ethereum"; "sepolia"; "proof"] |});
    ("Dual-Phase Sanitization",
     {| content := "The dual-phase sanitization process first overwrites all sectors with random data 
        (Phase 1), then performs a cryptographic erasure using device-specific commands like 
        ATA Secure Erase or NVMe Sanitize (Phase 2). This ensures complete data destruction 
        even on modern SSDs with wear leveling and hidden areas.";
        keywords := ["dual-phase"; "sanitization"; "overwrite"; "secure"; "erase"; "SSD"; "NVMe"] |});
    ("Data Wiping Process",
     {| content := "The Sayonara data wiping process includes: 1) Device detection and identification, 
        2) Unlocking of hidden areas (HPA/DCO/OPAL), 3) Selection of appropriate wiping method, 
        4) Dual-phase sanitization execution, 5) Forensic recovery testing, 6) Re-wiping if needed, 
        7) Certificate generation and blockchain recording, 8) Resale value estimation.";
        keywords := ["wiping"; "process"; "steps"; "forensic"; "recovery"; "certificate"] |});
    ("Environmental Impact",
     {| content := "Secure data wiping enables safe recycling and resale of IT assets, reducing e-waste 
        by up to 70%. Each properly wiped and recycled device saves approximately 24kg of CO₂ 
        emissions and prevents toxic materials from entering landfills. Our CSR dashboard tracks 
        and quantifies environmental impact metrics.";
        keywords := ["environmental"; "impact"; "recycling"; "e-waste"; "CO2"; "sustainability"] |}) ].

Module Result.
Record t := {
  topic : string;
  content : string;
  relevance : Z
}.
End Result.

(** The [reduce] over [data.keywords]: one point per keyword whose
    lower-cased form occurs in the lower-cased query. *)
Definition keywordScore (queryLower : string) (kws : list string) : Z :=
  fold_left
    (fun score keyword =>
       score + (if Str.includes queryLower (Str.toLowerCase keyword) then 1 else 0))
    kws 0.

(** [queryLower.includes(topic.toLowerCase())]. *)
Definition topicMatch (queryLower topic : string) : bool :=
  Str.includes queryLower (Str.toLowerCase topic).

(** One turn of the [for ... of Object.entries(...)] loop: the entry is
    pushed when it scored or its topic occurs in the query. *)
Definition visit (queryLower : string) (results : list Result.t)
    (entry : string * KnowledgeEntry) : list Result.t :=
  let '(topic, data) := entry in
  let relevanceScore := keywordScore queryLower (keywords data) in
  if (0 <? relevanceScore) || topicMatch queryLower topic then
    results ++
    [ {| Result.topic := topic;
         Result.content := content data;
         Result.relevance :=
           relevanceScore + (if topicMatch queryLower topic then 5 else 0) |} ]
  else results.

(** The [results] array when the loop over [kb] is done. *)
Definition collect (kb : list (string * KnowledgeEntry)) (query : string)
    : list Result.t :=
  fold_left (visit (Str.toLowerCase query)) kb [].

(** The comparator handed to [sort]. *)
Definition byRelevance (a b : Result.t) : Z :=
  Result.relevance b - Result.relevance a.

Definition searchIn (kb : list (string * KnowledgeEntry)) (query : string)
    : list Result.t :=
  Js.slice0 3 (Js.sort byRelevance (collect kb query)).

Definition searchKnowledgeBase (query : string) : list Result.t :=
  searchIn knowledgeBase query.

(** *** Session management *)

(** A turn of a conversation, [{ role, parts: [{ text }] }]. *)
Record Content := {
  role : string;
  parts : list string
}.

Record Session := {
  id : string;
  chatHistory : list Content;
  createdAt : Z;
  lastActivity : Z
}.

(** The values of the three [new Date()] that one call of
    [getOrCreateSession] may evaluate, in program order. *)
Record Dates := {
  atCreated : Z;
  atFirstActivity : Z;
  atTouch : Z
}.

Definition touch (now : Z) (session : Session) : Session :=
  {| id := id session;
     chatHistory := chatHistory session;
     createdAt := createdAt session;
     lastActivity := now |}.

(** [sessions] is the global [Map]; the session object returned is the
    one stored, so the assignment to [session.lastActivity] shows in the
    store.  Returns the session and the store after the call. *)
Definition getOrCreateSession (d : Dates) (sessionId : string)
    (sessions : gmap string Session) : Session * gmap string Session :=
  let sessions1 :=
    match sessions !! sessionId with
    | Some _ => sessions
    | None =>
        <[sessionId := {| id := sessionId;
                          chatHistory := [];
                          createdAt := atCreated d;
                          lastActivity := atFirstActivity d |}]> sessions
    end in
  match sessions1 !! sessionId with
  | Some session =>
      let session' := touch (atTouch d) session in
      (session', <[sessionId := session']> sessions1)
  | None =>
      (* [sessions.get] cannot miss after the [set] above *)
      let session' := {| id := sessionId; chatHistory := [];
                         createdAt := atCreated d;
                         lastActivity := atTouch d |} in
      (session', <[sessionId := session']> sessions1)
  end.

(** [session.chatHistory.push(turn)] on the stored session. *)
Definition pushTurn (sessionId : string) (turn : Content)
    (sessions : gmap string Session) : gmap string Session :=
  alter (fun session =>
           {| id := id session;
              chatHistory := chatHistory session ++ [turn];
              createdAt := createdAt session;
              lastActivity := lastActivity session |})
        sessionId sessions.

Definition timeout : Z := 30 * 60 * 1000.

(** The sweep runs every [5 * 60 * 1000] milliseconds. *)
Definition sweepPeriod : Z := 5 * 60 * 1000.

(** One turn of the loop over [sessions.entries()]. *)
Definition sweepVisit (now : Z) (sessions : gmap string Session)
    (entry : string * Session) : gmap string Session :=
  let '(sid, session) := entry in
  if timeout <? now - lastActivity session then delete sid sessions
  else sessions.

(** The body of the [setInterval] callback, [now] being its
    [new Date()].  A [Map] iterator visits every entry that is present
    when the loop starts and that is not deleted before its turn; the
    loop deletes the visited entry only, so it visits all of them, in an
    order the result does not depend on. *)
Definition sweep (now : Z) (sessions : gmap string Session)
    : gmap string Session :=
  fold_left (sweepVisit now) (map_to_list sessions) sessions.

(** *** Configuration and start-up *)

(** What the process does once its configuration is read. *)
Inductive Startup :=
  | Exits (code : Z)
  | Serves (clientKey : string).

(** [x || fallback] on an optional string: [undefined] and the empty
    string are falsy. *)
Definition orString (x : option string) (fallback : string) : string :=
  match x with
  | Some EmptyString | None => fallback
  | Some v => v
  end.

(** [!GEMINI_API_KEY], [env] being [process.env.GEMINI_API_KEY]. *)
Definition keyMissing (env : option string) : bool :=
  match env with
  | Some EmptyString | None => true
  | Some _ => false
  end.

(** A missing key is only warned about; the client is built with
    [GEMINI_API_KEY || 'demo-key'] and the server listens. *)
Definition startup (env : option string) : Startup :=
  Serves (orString env "demo-key").

(** *** Gemini integration *)

(** The request's [config] object. *)
Module Config.
Record t := {
  model : option string;
  maxTokens : option Z;
  temperature : option Q;
  ragEnabled : option bool
}.
(** [{}] *)
Definition empty : t :=
  {| model := None; maxTokens := None; temperature := None;
     ragEnabled := None |}.
End Config.

Module GenerationConfig.
Record t := {
  maxOutputTokens : Z;
  temperature : Q;
  topP : Q;
  topK : Z
}.
End GenerationConfig.

(** [x || fallback] on an optional number: [undefined] and [0] are
    falsy. *)
Definition orZ (x : option Z) (fallback : Z) : Z :=
  match x with
  | Some v => if v =? 0 then fallback else v
  | None => fallback
  end.

Definition orQ (x : option Q) (fallback : Q) : Q :=
  match x with
  | Some v => if Qeq_bool v 0 then fallback else v
  | None => fallback
  end.

(** The [generationConfig] handed to [model.startChat]. *)
Definition generationConfig (config : Config.t) : GenerationConfig.t :=
  {| GenerationConfig.maxOutputTokens := orZ (Config.maxTokens config) 2048;
     GenerationConfig.temperature :=
       orQ (Config.temperature config) (7 # 10)%Q;
     GenerationConfig.topP := (95 # 100)%Q;
     GenerationConfig.topK := 40 |}.

(** One call of the remote model: what [startChat] and [sendMessage]
    are given. *)
Record ChatCall := {
  apiKey : string;
  modelName : string;
  history : list Content;
  generation : GenerationConfig.t;
  prompt : string
}.

(** A thrown [Error]; [message] may be undefined. *)
Module Error.
Record t := { message : option string }.
End Error.

(** What the remote call comes back with: the text of the response, or
    an exception out of [sendMessage], [result.response] or [text()]. *)
Inductive Reply :=
  | Text (text : string)
  | Throws (error : Error.t).

Definition systemPrompt : string :=
"You are the Sayonara AI Assistant, an expert in secure data wiping, 
        IT asset recycling, and blockchain verification. You help users understand and use the 
        Sayonara platform which provides NIST 800-88 compliant data sanitization with blockchain 
        certificates. Always be helpful, technical when needed, and emphasize security and compliance.".

Definition newline : string := String (ascii_of_nat 10) EmptyString.

(** The prompt when the knowledge base answered. *)
Definition ragPrompt (message : string) (ragResults : list Result.t) : string :=
  (newline +:+ "Question: " +:+ message +:+ newline +:+ newline +:+
   "Relevant Knowledge Base Information:" +:+ newline +:+
   Str.join (newline +:+ newline)
     (map (fun r => Result.topic r +:+ ": " +:+ Result.content r) ragResults) +:+
   newline +:+ newline +:+
   "Please provide a comprehensive answer using the above information and your knowledge about the Sayonara data wiping platform." +:+
   newline +:+ "                ").

Definition enhancedPrompt (message : string) (config : Config.t) : string :=
  match Config.ragEnabled config with
  | Some true =>
      let ragResults := searchKnowledgeBase message in
      if (0 <? length ragResults)%nat then ragPrompt message ragResults
      else message
  | _ => message
  end.

(** The call that [generateGeminiResponse] issues. *)
Definition chatCall (key message : string) (chatHistory : list Content)
    (config : Config.t) : ChatCall :=
  {| apiKey := key;
     modelName := "gemini-2.5-flash";
     history := chatHistory;
     generation := generationConfig config;
     prompt := (systemPrompt +:+ newline +:+ newline +:+
                enhancedPrompt message config) |}.

Definition apiKeyFallback : string :=
"I'm currently unable to connect to the Gemini AI service. Please ensure your API key is configured correctly in the .env file. 

For now, I can tell you about the Sayonara platform: We provide military-grade data wiping with blockchain verification, ensuring your data is completely and verifiably erased before device recycling or resale.".

(** [error.message?.includes('API key')] *)
Definition mentionsApiKey (error : Error.t) : bool :=
  match Error.message error with
  | Some m => Str.includes m "API key"
  | None => false
  end.

(** [generateGeminiResponse(message, chatHistory, config)] for a client
    built with [key], when the remote call comes back with [reply].
    The result is the returned text ([inl]) or the rethrown error
    ([inr]), with the calls made to the remote model. *)
Definition generateGeminiResponse (key : string) (reply : Reply)
    (message : string) (chatHistory : list Content) (config : Config.t)
    : (string + Error.t) * list ChatCall :=
  let call := chatCall key message chatHistory config in
  match reply with
  | Text text => (inl text, [call])
  | Throws error =>
      if mentionsApiKey error then (inl apiKeyFallback, [call])
      else (inr error, [call])
  end.

(** *** Endpoints *)

(** A JSON response body.  The clock readings some bodies carry
    ([messageId], [timestamp]) are left out. *)
Inductive Body :=
  | ChatBody (text : string) (model : string) (sessionId : string)
  | ErrorBody (error : string) (detail : option string).

Record Response := {
  status : Z;
  body : Body
}.

(** What a handler leaves behind: its response, the session store and
    the calls it made to the remote model. *)
Record Outcome := {
  response : Response;
  store : gmap string Session;
  calls : list ChatCall
}.

(** A [POST /api/chat] request: the [X-Session-Id] header and the
    fields of the JSON body, each of which may be absent. *)
Module ChatRequest.
Record t := {
  sessionHeader : option string;
  message : option string;
  chatHistory : option (list Content);
  config : option Config.t
}.
End ChatRequest.

(** The message of the [TypeError] that [message.substring] raises on
    an undefined [message]; its wording is the engine's. *)
Definition substringOfUndefined : string :=
  "Cannot read properties of undefined (reading 'substring')".

(** [config?.model || 'gemini-pro'] *)
Definition metadataModel (config : option Config.t) : string :=
  match config with
  | Some c => orString (Config.model c) "gemini-pro"
  | None => "gemini-pro"
  end.

(** [app.post('/api/chat', ...)]: the whole handler body is inside one
    [try]; its [catch] answers 500. *)
Definition postChat (key : string) (d : Dates) (reply : Reply)
    (req : ChatRequest.t) (sessions : gmap string Session) : Outcome :=
  let sessionId := orString (ChatRequest.sessionHeader req) "default" in
  match ChatRequest.message req with
  | None =>
      {| response :=
           {| status := 500;
              body := ErrorBody "Failed to generate response"
                                (Some substringOfUndefined) |};
         store := sessions;
         calls := [] |}
  | Some message =>
      let '(_, sessions1) := getOrCreateSession d sessionId sessions in
      let sessions2 :=
        pushTurn sessionId {| role := "user"; parts := [message] |} sessions1 in
      let sessionHistory :=
        match sessions2 !! sessionId with
        | Some session => chatHistory session
        | None => []
        end in
      let history :=
        match ChatRequest.chatHistory req with
        | Some h => h
        | None => sessionHistory
        end in
      let config :=
        match ChatRequest.config req with
        | Some c => c
        | None => Config.empty
        end in
      match generateGeminiResponse key reply message history config with
      | (inl responseText, made) =>
          {| response :=
               {| status := 200;
                  body := ChatBody responseText
                            (metadataModel (ChatRequest.config req))
                            sessionId |};
             store :=
               pushTurn sessionId
                 {| role := "model"; parts := [responseText] |} sessions2;
             calls := made |}
      | (inr error, made) =>
          {| response :=
               {| status := 500;
                  body := ErrorBody "Failed to generate response"
                                    (Error.message error) |};
             store := sessions2;
             calls := made |}
      end
  end.

(** One server-sent frame: [{ content, done }] or [{ error, done }]. *)
Inductive Frame :=
  | Data (content : string) (done : bool)
  | Failure (error : option string) (done : bool).

Definition frameOf (e : Spec.StreamEvent) : Frame :=
  Data (Spec.partialContent e) (Spec.isFinal e).

(** The state of the word loop of [GET /api/chat/stream]. *)
Record Loop := {
  words : list string;
  i : nat;
  currentText : string;
  written : list Frame;
  ended : bool
}.

Definition loopStart (responseText : string) : Loop :=
  {| words := Str.split responseText;
     i := 0;
     currentText := EmptyString;
     written := [];
     ended := false |}.

(** One pass of the [for] loop (a [res.write] followed by the 50 ms
    pause), or [res.end()] once [i] reached [words.length]. *)
Definition loopIter (st : Loop) : Loop :=
  match words st !! i st with
  | Some w =>
      let currentText' :=
        currentText st +:+ (if (0 <? i st)%nat then " " else "") +:+ w in
      {| words := words st;
         i := S (i st);
         currentText := currentText';
         written :=
           written st ++
           [Data currentText'
                 (Z.of_nat (i st) =? Z.of_nat (length (words st)) - 1)];
         ended := false |}
  | None =>
      {| words := words st; i := i st; currentText := currentText st;
         written := written st; ended := true |}
  end.

(** What can happen to a running stream: its pause is over, or the
    client closes the connection.  The handler registers no listener
    for the latter. *)
Inductive LoopEvent :=
  | Resume
  | ClientClose.

Definition loopStep (st : Loop) (ev : LoopEvent) : Loop :=
  match ev with
  | Resume => if ended st then st else loopIter st
  | ClientClose => st
  end.

Definition loopRun (st : Loop) (evs : list LoopEvent) : Loop :=
  fold_left loopStep evs st.

(** The frames of an undisturbed stream of [responseText]. *)
Definition streamFrames (responseText : string) : list Frame :=
  let st := loopStart responseText in
  written (loopRun st (repeat Resume (S (length (words st))))).

(** [app.get('/api/chat/stream', ...)] run to its end: [sessionId]
    defaults to ['default'] when the query has none, and the
    generation is called with the session's history and no config. *)
Definition getStream (key : string) (d : Dates) (reply : Reply)
    (message : string) (sessionId : option string)
    (sessions : gmap string Session)
    : list Frame * gmap string Session * list ChatCall :=
  let sid := default "default" sessionId in
  let '(session, sessions1) := getOrCreateSession d sid sessions in
  match generateGeminiResponse key reply message (chatHistory session)
          Config.empty with
  | (inl responseText, made) => (streamFrames responseText, sessions1, made)
  | (inr error, made) => ([Failure (Error.message error) true], sessions1, made)
  end.

End Server.

(** ** The stand-alone [server.js] *)

Module SimpleServer.

Definition placeholderKey : string := "YOUR_GEMINI_API_KEY_HERE".

(** A missing, empty or placeholder key ends the process with
    [process.exit(1)] before [app.listen]. *)
Definition startup (env : option string) : Server.Startup :=
  match env with
  | None => Server.Exits 1
  | Some key =>
      if bool_decide (key = EmptyString) || bool_decide (key = placeholderKey)
      then Server.Exits 1
      else Server.Serves key
  end.

(** What [ai.models.generateContent] is given. *)
Record GenerateCall := {
  apiKey : string;
  model : string;
  contents : list Server.Content;
  systemInstruction : string
}.

Inductive Body :=
  | TextBody (text : string)
  | ErrorBody (error : string).

Record Response := {
  status : Z;
  body : Body
}.

Section Handler.
(** The slide text that serves as system instruction. *)
Variable PROJECT_CONTEXT : string.

(** [app.post('/api/chat', ...)], [chatHistory] being the field of
    the request body. *)
Definition postChat (key : string) (reply : Server.Reply)
    (chatHistory : option (list Server.Content))
    : Response * list GenerateCall :=
  match chatHistory with
  | None | Some [] =>
      ({| status := 400; body := ErrorBody "contents are required" |}, [])
  | Some contents =>
      let call := {| apiKey := key;
                     model := "gemini-2.5-flash";
                     contents := contents;
                     systemInstruction := PROJECT_CONTEXT |} in
      match reply with
      | Server.Text text =>
          ({| status := 200;
              body := TextBody
                        (Server.orString (Some text)
                           "I was unable to generate a response.") |},
           [call])
      | Server.Throws _ =>
          ({| status := 500;
              body := ErrorBody "Failed to communicate with the Gemini API." |},
           [call])
      end
  end.
End Handler.

End SimpleServer.

(** ** The browser client *)

Module Client.

Definition wiping : string :=
  "The Sayonara platform uses military-grade NIST 800-88 compliant data sanitization. Our dual-phase process ensures complete erasure with blockchain verification.".
Definition blockchain : string :=
  "Each data wipe generates a tamper-proof certificate stored on the Ethereum Sepolia testnet. This provides immutable proof of compliance.".
Definition rag : string :=
  "Our RAG (Retrieval Augmented Generation) system enhances responses with real-time data from our knowledge base about secure data wiping procedures.".
Definition default : string :=
  "I understand your query about the Sayonara data wiping solution. Our platform offers comprehensive secure erasure with AI guidance and blockchain verification.".

(** The canned response [demoStream] plays back for [message]. *)
Definition pickResponse (message : string) : string :=
  let lower := Str.toLowerCase message in
  if Str.includes lower "wip" then wiping
  else if Str.includes lower "blockchain" then blockchain
  else if Str.includes lower "rag" then rag
  else default.

(** One call [onChunk(content, done)]. *)
Record Chunk := {
  content : string;
  done : bool
}.

Definition chunkOf (e : Spec.StreamEvent) : Chunk :=
  {| content := Spec.partialContent e; done := Spec.isFinal e |}.

(** The variables the interval callback closes over, and whether the
    interval is still scheduled. *)
Record Stream := {
  response : string;
  words : list string;
  index : nat;
  interval : bool
}.

(** The state in which [demoStream] returns, for a given response. *)
Definition startStream (text : string) : Stream :=
  {| response := text;
     words := Str.split text;
     index := 0;
     interval := true |}.

Definition demoStream (message : string) : Stream :=
  startStream (pickResponse message).

(** The body of the interval callback. *)
Definition tick (st : Stream) : Stream * list Chunk :=
  if (index st <? length (words st))%nat then
    ({| response := response st; words := words st;
        index := S (index st); interval := interval st |},
     [ {| content := Str.join " " (take (S (index st)) (words st));
          done := false |} ])
  else
    ({| response := response st; words := words st;
        index := index st; interval := false |},
     [ {| content := response st; done := true |} ]).

(** [clearInterval(interval)], the cleanup that [demoStream] returns. *)
Definition clear (st : Stream) : Stream :=
  {| response := response st; words := words st;
     index := index st; interval := false |}.

(** What can happen to a stream: 100 ms have passed, or the cleanup is
    invoked.  A cleared interval does not call back. *)
Inductive Event :=
  | Elapse
  | Cleanup.

Definition step (st : Stream) (ev : Event) : Stream * list Chunk :=
  match ev with
  | Elapse => if interval st then tick st else (st, [])
  | Cleanup => (clear st, [])
  end.

(** The chunks delivered along a sequence of events. *)
Fixpoint run (st : Stream) (evs : list Event) : Stream * list Chunk :=
  match evs with
  | [] => (st, [])
  | ev :: evs' =>
      let '(st1, out1) := step st ev in
      let '(st2, out2) := run st1 evs' in
      (st2, (out1 ++ out2))
  end.

(** *** [streamMessage] after its [EventSource] was created

    [source] tells whether the [EventSource] is open; [fallback] is the
    demo stream that [onerror] started, if any. *)
Record Connection := {
  source : bool;
  fallback : option Stream
}.

Definition connected : Connection :=
  {| source := true; fallback := None |}.

Inductive ConnectionEvent :=
  | SourceError
  | TimerElapse
  | ReturnedCleanup.

(** [onerror] closes the source and starts [demoStream], whose
    cleanup it drops; the cleanup that [streamMessage] returned is
    [() => eventSource.close()]. *)
Definition connectionStep (message : string) (c : Connection)
    (ev : ConnectionEvent) : Connection * list Chunk :=
  match ev with
  | SourceError =>
      if source c
      then ({| source := false; fallback := Some (demoStream message) |}, [])
      else (c, [])
  | TimerElapse =>
      match fallback c with
      | Some st =>
          let '(st', out) := step st Elapse in
          ({| source := source c; fallback := Some st' |}, out)
      | None => (c, [])
      end
  | ReturnedCleanup => ({| source := false; fallback := fallback c |}, [])
  end.

Fixpoint connectionRun (message : string) (c : Connection)
    (evs : list ConnectionEvent) : Connection * list Chunk :=
  match evs with
  | [] => (c, [])
  | ev :: evs' =>
      let '(c1, out1) := connectionStep message c ev in
      let '(c2, out2) := connectionRun message c1 evs' in
      (c2, (out1 ++ out2))
  end.

End Client.

(** ** The RAG endpoint *)

Module RagEndpoint.

(** One entry of [sources]: [{ topic, relevance }]. *)
Record Source := {
  topic : string;
  relevance : Z
}.

Inductive Body :=
  | Answer (answer : string) (sources : list Source)
  | ErrorBody (error : option string).

Record Outcome := {
  status : Z;
  body : Body;
  calls : list Server.ChatCall
}.

Definition noRelevantInformation : string :=
  "No relevant information found in the knowledge base.".

(** The message of the [TypeError] that [query.toLowerCase()] raises in
    [searchKnowledgeBase] on an undefined [query]; its wording is the
    engine's. *)
Definition toLowerCaseOfUndefined : string :=
  "Cannot read properties of undefined (reading 'toLowerCase')".

(** The template literal [ragPrompt] of the handler. *)
Definition ragPrompt (query : string) (results : list Server.Result.t)
    : string :=
  Server.newline +:+
  "        Based on the following information from our knowledge base, answer this query: "
  +:+ query +:+ Server.newline +:+
  "        " +:+ Server.newline +:+
  "        " +:+
  Str.join (Server.newline +:+ Server.newline)
    (map (fun r => Server.Result.topic r +:+ ": " +:+ Server.Result.content r)
         results) +:+
  Server.newline +:+ "        ".

(** [{ temperature: 0.5, ragEnabled: false }] *)
Definition config : Server.Config.t :=
  {| Server.Config.model := None;
     Server.Config.maxTokens := None;
     Server.Config.temperature := Some (5 # 10)%Q;
     Server.Config.ragEnabled := Some false |}.

Definition sourceOf (r : Server.Result.t) : Source :=
  {| topic := Server.Result.topic r; relevance := Server.Result.relevance r |}.

(** [app.post('/api/rag', ...)], [query] being the field of the request
    body; the handler's [catch] answers 500 with the error's message. *)
Definition postRag (key : string) (reply : Server.Reply)
    (query : option string) : Outcome :=
  match query with
  | None =>
      {| status := 500;
         body := ErrorBody (Some toLowerCaseOfUndefined);
         calls := [] |}
  | Some query =>
      let results := Server.searchKnowledgeBase query in
      if (length results =? 0)%nat then
        {| status := 200;
           body := Answer noRelevantInformation [];
           calls := [] |}
      else
        match Server.generateGeminiResponse key reply
                (ragPrompt query results) [] config with
        | (inl answer, made) =>
            {| status := 200;
               body := Answer answer (map sourceOf results);
               calls := made |}
        | (inr error, made) =>
            {| status := 500;
               body := ErrorBody (Server.Error.message error);
               calls := made |}
        end
  end.

End RagEndpoint.

(** ** The upload endpoint *)

Module UploadEndpoint.

(** What multer leaves in [req.file]. *)
Record File := {
  originalname : string;
  size : Z;
  path : string
}.

(** The calls made to [fs]. *)
Inductive FsCall :=
  | ReadFile (path : string)
  | Unlink (path : string).

Inductive Body :=
  | Processed (filename : string) (size : Z) (analysis : string)
  | ErrorBody (error : option string).

Record Outcome := {
  status : Z;
  body : Body;
  fsCalls : list FsCall;
  calls : list Server.ChatCall
}.

(** The message handed to [generateGeminiResponse]. *)
Definition analysisPrompt (content : string) : string :=
  "Analyze this file content and provide a summary:" +:+
  Server.newline +:+ Server.newline +:+
  Str.substringTo 1000 content +:+ "...".

(** [{ temperature: 0.3 }] *)
Definition config : Server.Config.t :=
  {| Server.Config.model := None;
     Server.Config.maxTokens := None;
     Server.Config.temperature := Some (3 # 10)%Q;
     Server.Config.ragEnabled := None |}.

(** [app.post('/api/chat/upload', ...)] once multer has run: [file] is
    [req.file], [read] what [fs.readFile] comes back with (the content
    or an exception) and [unlinked] the exception of [fs.unlink], if
    any. *)
Definition postUpload (key : string) (reply : Server.Reply)
    (file : option File) (read : string + Server.Error.t)
    (unlinked : option Server.Error.t) : Outcome :=
  match file with
  | None =>
      {| status := 400; body := ErrorBody (Some "No file uploaded");
         fsCalls := []; calls := [] |}
  | Some f =>
      match read with
      | inr error =>
          {| status := 500; body := ErrorBody (Server.Error.message error);
             fsCalls := [ReadFile (path f)]; calls := [] |}
      | inl content =>
          match unlinked with
          | Some error =>
              {| status := 500;
                 body := ErrorBody (Server.Error.message error);
                 fsCalls := [ReadFile (path f); Unlink (path f)];
                 calls := [] |}
          | None =>
              match Server.generateGeminiResponse key reply
                      (analysisPrompt content) [] config with
              | (inl analysis, made) =>
                  {| status := 200;
                     body := Processed (originalname f) (size f) analysis;
                     fsCalls := [ReadFile (path f); Unlink (path f)];
                     calls := made |}
              | (inr error, made) =>
                  {| status := 500;
                     body := ErrorBody (Server.Error.message error);
                     fsCalls := [ReadFile (path f); Unlink (path f)];
                     calls := made |}
              end
          end
      end
  end.

End UploadEndpoint.

(** ** The client's requests *)

Module Api.

(** The fields of a JSON body that the client reads. *)
Record Json := {
  text : option string;
  content : option string;
  response : option string;
  answer : option string;
  done : bool
}.

(** [{}] *)
Definition emptyJson : Json :=
  {| text := None; content := None; response := None; answer := None;
     done := false |}.

(** What [fetch] resolves to. *)
Record Http := {
  ok : bool;
  status : Z;
  json : Json
}.

(** The outcome of [fetch]: a response, or a rejection (the network is
    down, the server is not there). *)
Inductive Fetched :=
  | Responded (r : Http)
  | Rejected (error : Server.Error.t).

(** [response.ok]: the status is in the range 200-299. *)
Definition okStatus (status : Z) : bool :=
  (200 <=? status) && (status <=? 299).

(** [a || b] on optional strings, [b] being evaluated only when [a] is
    falsy. *)
Definition orElse (a b : option string) : option string :=
  match a with
  | Some EmptyString | None => b
  | Some _ => a
  end.

(** The JSON that [POST /api/chat] sends: the response text goes out as
    [text], [content] and [response]. *)
Definition ofChat (r : Server.Response) : Http :=
  {| ok := okStatus (Server.status r);
     status := Server.status r;
     json :=
       match Server.body r with
       | Server.ChatBody responseText _ _ =>
           {| text := Some responseText; content := Some responseText;
              response := Some responseText; answer := None; done := true |}
       | Server.ErrorBody _ _ => emptyJson
       end |}.

(** The JSON that [POST /api/rag] sends. *)
Definition ofRag (o : RagEndpoint.Outcome) : Http :=
  {| ok := okStatus (RagEndpoint.status o);
     status := RagEndpoint.status o;
     json :=
       match RagEndpoint.body o with
       | RagEndpoint.Answer a _ =>
           {| text := None; content := None; response := None;
              answer := Some a; done := false |}
       | RagEndpoint.ErrorBody _ => emptyJson
       end |}.

(** One call [onChunk(content, done)], [content] being read from a JSON
    body and so possibly undefined. *)
Record Received := {
  chunk : option string;
  final : bool
}.

Definition ofChunk (c : Client.Chunk) : Received :=
  {| chunk := Some (Client.content c); final := Client.done c |}.

(** [sendMessage]: the content of the answer, or the error it rethrows. *)
Definition sendMessage (fetched : Fetched) : option string + Server.Error.t :=
  match fetched with
  | Rejected error => inr error
  | Responded r =>
      if ok r then
        inl (orElse (text (json r)) (orElse (content (json r)) (response (json r))))
      else
        inr {| Server.Error.message := Some ("API Error: " +:+ pretty (status r)) |}
  end.

(** [streamMessage] when [ENABLE_STREAMING] is off: one final chunk with
    the content of [sendMessage], or the error of [sendMessage]. *)
Definition streamMessageOff (fetched : Fetched)
    : list Received + Server.Error.t :=
  match sendMessage fetched with
  | inl c => inl [ {| chunk := c; final := true |} ]
  | inr error => inr error
  end.

(** The server-sent frame as [JSON.parse(event.data)] gives it. *)
Definition ofFrame (f : Server.Frame) : Json :=
  match f with
  | Server.Data c d =>
      {| text := None; content := Some c; response := None; answer := None;
         done := d |}
  | Server.Failure _ d =>
      {| text := None; content := None; response := None; answer := None;
         done := d |}
  end.

(** [eventSource.onmessage] over the frames that arrive: every frame is
    handed to [onChunk]; at the first one flagged [done] the source is
    closed, so that later frames are not seen. *)
Fixpoint onmessage (frames : list Json) : list Received :=
  match frames with
  | [] => []
  | data :: frames' =>
      if done data then [ {| chunk := content data; final := true |} ]
      else {| chunk := content data; final := false |} :: onmessage frames'
  end.

(** [queryRAG]: [null] when RAG is switched off, when the request fails
    and when the answer is not ok; the parsed body otherwise. *)
Definition queryRAG (ragEnabled : bool) (fetched : Fetched) : option Json :=
  if ragEnabled then
    match fetched with
    | Responded r => if ok r then Some (json r) else None
    | Rejected _ => None
    end
  else None.

End Api.

(** ** The chat window *)

Module Ui.

(** An entry of [messages]; its [timestamp] is left out. *)
Record Message := {
  id : Z;
  content : option string;
  isUser : bool
}.

(** The state of [ChatWindow] that a request touches, with the
    [chatHistory] of [ChatContext]. *)
Record Window := {
  messages : list Message;
  isTyping : bool;
  error : option string;
  chatHistory : list Message
}.

(** The updater handed to [setMessages] for a chunk that is not final. *)
Definition showChunk (tempId : Z) (c : option string) (prev : list Message)
    : list Message :=
  if existsb (fun m => id m =? tempId) prev then
    map (fun m =>
           if id m =? tempId
           then {| id := id m; content := c; isUser := isUser m |}
           else m)
        prev
  else prev ++ [ {| id := tempId; content := c; isUser := false |} ].

(** The [onChunk] callback of [handleSendMessage]. *)
Definition onChunk (tempId : Z) (w : Window) (r : Api.Received) : Window :=
  if Api.final r then
    {| messages := messages w;
       isTyping := false;
       error := error w;
       chatHistory :=
         chatHistory w ++
         [ {| id := tempId; content := Api.chunk r; isUser := false |} ] |}
  else
    {| messages := showChunk tempId (Api.chunk r) (messages w);
       isTyping := isTyping w;
       error := error w;
       chatHistory := chatHistory w |}.

(** The window once the callback has seen all of [rs]. *)
Definition deliver (tempId : Z) (w : Window) (rs : list Api.Received)
    : Window :=
  fold_left (onChunk tempId) rs w.

(** What [handleSendMessage] does with a message. *)
Inductive Route :=
  | Clear
  | Rag (query : string)
  | Chat.

(** The [switch] on the first word of a message that starts with a
    slash; every other message goes to the model. *)
Definition route (content : string) : Route :=
  if Str.startsWith "/" content then
    match Str.split content with
    | command :: _ =>
        if bool_decide (command = "/clear") then Clear
        else if bool_decide (command = "/rag")
             then Rag (Str.substringFrom 5 content)
             else Chat
    | [] => Chat
    end
  else Chat.

(** The text shown for a [/rag] message,
    [ragResponse?.answer || 'RAG query completed.']. *)
Definition ragShown (ragResponse : option Api.Json) : string :=
  match ragResponse with
  | Some data => Server.orString (Api.answer data) "RAG query completed."
  | None => "RAG query completed."
  end.

(** [conversations.filter(conv => conv.title.toLowerCase()
    .includes(searchTerm.toLowerCase()))] of the sidebar, on the
    titles. *)
Definition filteredConversations (searchTerm : string) (titles : list string)
    : list string :=
  filter
    (fun title =>
       Str.includes (Str.toLowerCase title) (Str.toLowerCase searchTerm) = true)
    titles.

(** The initial [isDark] for the value saved under ['theme']:
    [saved === 'dark' || saved === null]. *)
Definition initialDark (saved : option string) : bool :=
  match saved with
  | None => true
  | Some v => bool_decide (v = "dark")
  end.

(** [toggleTheme]: the new [isDark] and the value it saves. *)
Definition toggleTheme (isDark : bool) : bool * option string :=
  let newTheme := negb isDark in
  (newTheme, Some (if newTheme then "dark" else "light")).

End Ui.

(** ** Sample data *)

Module Sample.

Definition idle : Server.Session :=
  {| Server.id := "idle"; Server.chatHistory := [];
     Server.createdAt := 0; Server.lastActivity := 0 |}.

Definition active : Server.Session :=
  {| Server.id := "active";
     Server.chatHistory := [ {| Server.role := "user"; Server.parts := ["hello"] |} ];
     Server.createdAt := 0; Server.lastActivity := 1500000 |}.

Definition sessions : gmap string Server.Session :=
  <["idle" := idle]> (<["active" := active]> ∅).

(** A sweep 1 900 000 ms after the epoch: [idle] has been idle for
    more than 30 minutes, [active] for less. *)
Definition now : Z := 1900000.

Definition dates : Server.Dates :=
  {| Server.atCreated := now; Server.atFirstActivity := now;
     Server.atTouch := now |}.

(** A chat request that carries a message and nothing else. *)
Definition hello : Server.ChatRequest.t :=
  {| Server.ChatRequest.sessionHeader := None;
     Server.ChatRequest.message := Some "hello";
     Server.ChatRequest.chatHistory := None;
     Server.ChatRequest.config := None |}.

(** An upstream failure that does not mention the API key. *)
Definition networkDown : Server.Error.t :=
  {| Server.Error.message := Some "fetch failed" |}.

(** The failure the remote API reports for a wrong key. *)
Definition badKey : Server.Error.t :=
  {| Server.Error.message := Some "API key not valid. Please pass a valid API key." |}.

End Sample.

(** * Properties *)

(** ** Strings *)

Section Strings.

Lemma append_cons (c : ascii) (s t : string) :
  String c s +:+ t = String c (s +:+ t).
Proof. reflexivity. Qed.

Lemma append_empty_r (s : string) : s +:+ "" = s.
Proof.
  induction s as [|c s IH]; [reflexivity |].
  by rewrite append_cons, IH.
Qed.

Lemma append_assoc (s t u : string) :
  (s +:+ t) +:+ u = s +:+ t +:+ u.
Proof.
  induction s as [|c s IH]; [reflexivity |].
  by rewrite !append_cons, IH.
Qed.

Lemma split_nonempty (s : string) : Str.split s ≠ [].
Proof.
  destruct s as [|c s]; simpl; [discriminate |].
  case_bool_decide; [discriminate |].
  destruct (Str.split s); discriminate.
Qed.

Lemma split_length (s : string) : (1 ≤ length (Str.split s))%nat.
Proof.
  pose proof (split_nonempty s) as H.
  destruct (Str.split s); [done | simpl; lia].
Qed.

Lemma join_cons (sep w : string) (ws : list string) :
  ws ≠ [] → Str.join sep (w :: ws) = w +:+ sep +:+ Str.join sep ws.
Proof. destruct ws; [done | reflexivity]. Qed.

(** Adding a piece at the end, the way the server loop grows
    [currentText]. *)
Lemma join_snoc (sep w : string) (ws : list string) :
  Str.join sep (ws ++ [w]) =
  Str.join sep ws +:+ (if (0 <? length ws)%nat then sep else "") +:+ w.
Proof.
  induction ws as [|v ws IH]; [reflexivity |].
  destruct ws as [|v' ws].
  - reflexivity.
  - change ((v :: v' :: ws) ++ [w]) with (v :: ((v' :: ws) ++ [w])).
    rewrite join_cons by (simpl; discriminate).
    rewrite IH. simpl length. simpl Nat.ltb.
    rewrite (join_cons sep v (v' :: ws)) by discriminate.
    by rewrite !append_assoc.
Qed.

(** Joining the pieces with the separator they were cut at gives the
    text back. *)
Lemma join_split (s : string) : Str.join " " (Str.split s) = s.
Proof.
  induction s as [|c s IH]; [reflexivity |].
  simpl Str.split. case_bool_decide as Hc.
  - subst c. rewrite join_cons by apply split_nonempty.
    by rewrite IH.
  - pose proof (split_nonempty s) as Hne.
    destruct (Str.split s) as [|w ws]; [done |].
    destruct ws as [|w' ws].
    + simpl in *. by rewrite IH.
    + rewrite join_cons by discriminate.
      rewrite join_cons in IH by discriminate.
      by rewrite append_cons, IH.
Qed.

End Strings.

(** ** Simulated streaming *)

Section Streams.

Local Arguments Spec.prefixes : simpl never.
Local Arguments Str.join : simpl never.
Local Arguments Str.split : simpl never.

Lemma prefixes_S (ws : list string) (m : nat) :
  Spec.prefixes ws (S m) =
  (Spec.prefixes ws m ++
   [ {| Spec.partialContent := Str.join " " (take (S m) ws);
        Spec.isFinal := false |} ]).
Proof. unfold Spec.prefixes. by rewrite seq_S, map_app. Qed.

Lemma prefixes_length (ws : list string) (m : nat) :
  length (Spec.prefixes ws m) = m.
Proof. unfold Spec.prefixes. by rewrite length_map, length_seq. Qed.

Lemma repeat_snoc {A} (x : A) (n : nat) :
  repeat x (S n) = (repeat x n ++ [x]).
Proof. simpl. apply repeat_cons. Qed.

(** *** The client's interval *)

Lemma client_run_app (st : Client.Stream) (evs1 evs2 : list Client.Event) :
  Client.run st (evs1 ++ evs2) =
  ((Client.run (Client.run st evs1).1 evs2).1,
   ((Client.run st evs1).2 ++ (Client.run (Client.run st evs1).1 evs2).2)).
Proof.
  revert st. induction evs1 as [|ev evs1 IH]; intros st; simpl.
  - by destruct (Client.run st evs2).
  - destruct (Client.step st ev) as [st1 out1].
    rewrite IH. destruct (Client.run st1 evs1) as [st2 out2]; simpl.
    destruct (Client.run st2 evs2) as [st3 out3]; simpl.
    by rewrite app_assoc.
Qed.

(** Once the interval is cleared nothing is delivered any more. *)
Lemma client_run_cleared (st : Client.Stream) (evs : list Client.Event) :
  Client.interval st = false → Client.run st evs = (st, []).
Proof.
  intros Hoff. induction evs as [|ev evs IH]; [reflexivity |].
  assert (Client.step st ev = (st, [])) as Hstep.
  { destruct ev; simpl; [by rewrite Hoff |].
    destruct st; simpl in *; by subst. }
  simpl. by rewrite Hstep, IH.
Qed.

(** After [k] callbacks the first [k] prefixes are out and the interval
    is still scheduled. *)
Lemma client_run_elapse (text : string) (k : nat) :
  (k ≤ length (Str.split text))%nat →
  Client.run (Client.startStream text) (repeat Client.Elapse k) =
  ({| Client.response := text; Client.words := Str.split text;
      Client.index := k; Client.interval := true |},
   map Client.chunkOf (Spec.prefixes (Str.split text) k)).
Proof.
  induction k as [|k IH]; intros Hk; [reflexivity |].
  rewrite repeat_snoc, client_run_app, IH by lia.
  rewrite prefixes_S, map_app. simpl. unfold Client.tick. simpl.
  destruct (Nat.ltb_spec k (length (Str.split text))) as [_|?]; [|lia].
  reflexivity.
Qed.

(** The callback after the last word clears the interval and delivers
    the final chunk. *)
Lemma client_run_complete (text : string) (extra : nat) :
  Client.run (Client.startStream text)
    (repeat Client.Elapse (S (length (Str.split text)) + extra)) =
  ({| Client.response := text; Client.words := Str.split text;
      Client.index := length (Str.split text); Client.interval := false |},
   map Client.chunkOf (Spec.simulated text)).
Proof.
  rewrite repeat_app, client_run_app.
  rewrite repeat_snoc, client_run_app.
  rewrite client_run_elapse by lia. simpl. unfold Client.tick. simpl.
  rewrite Nat.ltb_irrefl. simpl.
  rewrite client_run_cleared by reflexivity. simpl.
  unfold Spec.simulated. by rewrite !map_app, app_nil_r.
Qed.

(** *** The server's word loop *)

Lemma loopRun_app (st : Server.Loop) (evs1 evs2 : list Server.LoopEvent) :
  Server.loopRun st (evs1 ++ evs2) =
  Server.loopRun (Server.loopRun st evs1) evs2.
Proof. unfold Server.loopRun. apply fold_left_app. Qed.

(** A closing client changes nothing in the loop. *)
Lemma loopRun_close (st : Server.Loop) (evs1 evs2 : list Server.LoopEvent) :
  Server.loopRun st (evs1 ++ Server.ClientClose :: evs2) =
  Server.loopRun st (evs1 ++ evs2).
Proof. by rewrite !loopRun_app. Qed.

Lemma take_snoc_join (ws : list string) (k : nat) (w : string) :
  ws !! k = Some w →
  Str.join " " (take (S k) ws) =
  Str.join " " (take k ws) +:+ (if (0 <? k)%nat then " " else "") +:+ w.
Proof.
  intros Hw. rewrite (take_S_r _ _ _ Hw), join_snoc.
  rewrite length_take. apply lookup_lt_Some in Hw.
  by replace (k `min` length ws)%nat with k by lia.
Qed.

(** After [k] passes, [k] below the number of words, the first [k]
    prefixes are written, none of them final. *)
Lemma loopRun_resume (text : string) (k : nat) :
  (k < length (Str.split text))%nat →
  Server.loopRun (Server.loopStart text) (repeat Server.Resume k) =
  {| Server.words := Str.split text;
     Server.i := k;
     Server.currentText := Str.join " " (take k (Str.split text));
     Server.written := map Server.frameOf (Spec.prefixes (Str.split text) k);
     Server.ended := false |}.
Proof.
  induction k as [|k IH]; intros Hk; [reflexivity |].
  rewrite repeat_snoc, loopRun_app, IH by lia.
  destruct (lookup_lt_is_Some_2 (Str.split text) k) as [w Hw]; [lia |].
  rewrite prefixes_S, map_app.
  unfold Server.loopRun. simpl. unfold Server.loopIter. simpl. rewrite Hw.
  rewrite <- (take_snoc_join _ _ _ Hw). unfold Server.frameOf at 2. simpl.
  destruct (Z.eqb_spec (Z.of_nat k) (Z.of_nat (length (Str.split text)) - 1));
    [lia | reflexivity].
Qed.

(** The last pass writes the whole text, flagged as final. *)
Lemma loopRun_last (text : string) :
  Server.loopRun (Server.loopStart text)
    (repeat Server.Resume (length (Str.split text))) =
  {| Server.words := Str.split text;
     Server.i := length (Str.split text);
     Server.currentText := text;
     Server.written :=
       map Server.frameOf
         (Spec.prefixes (Str.split text) (length (Str.split text) - 1)
          ++ [Spec.final text]);
     Server.ended := false |}.
Proof.
  pose proof (split_length text) as Hn.
  destruct (length (Str.split text)) as [|m] eqn:Hlen; [lia |].
  replace (S m - 1)%nat with m by lia.
  rewrite repeat_snoc, loopRun_app, loopRun_resume by lia.
  destruct (lookup_lt_is_Some_2 (Str.split text) m) as [w Hw]; [lia |].
  unfold Server.loopRun. simpl. unfold Server.loopIter. simpl. rewrite Hw.
  rewrite <- (take_snoc_join _ _ _ Hw).
  assert (take (S m) (Str.split text) = Str.split text) as ->
    by (rewrite <- Hlen; apply firstn_all).
  rewrite join_split, map_app, Hlen.
  destruct (Z.eqb_spec (Z.of_nat m) (Z.of_nat (S m) - 1)); [reflexivity | lia].
Qed.

(** The pass after the last word ends the response. *)
Lemma streamFrames_closed_form (text : string) :
  Server.streamFrames text =
  map Server.frameOf
    (Spec.prefixes (Str.split text) (length (Str.split text) - 1)
     ++ [Spec.final text]).
Proof.
  unfold Server.streamFrames.
  change (Server.words (Server.loopStart text)) with (Str.split text).
  rewrite repeat_snoc, loopRun_app, loopRun_last.
  unfold Server.loopRun. simpl. unfold Server.loopIter. simpl.
  by rewrite (lookup_ge_None_2 (Str.split text)) by lia.
Qed.

(** The canned responses have single spaces only: their pieces are
    their words. *)
Lemma canned_responses_words (message : string) :
  Forall (λ w, w ≠ "") (Str.split (Client.pickResponse message)).
Proof.
  unfold Client.pickResponse.
  repeat (destruct (Str.includes _ _));
    apply Forall_forall; intros w Hw Hempty; subst w;
    revert Hw; apply (bool_decide_unpack (_ ∉ _)); by vm_compute.
Qed.

(** *** The delivered events *)

(** C1, as the code has it.  The client's [demoStream] delivers, for a
    response of [n] pieces, the [n] cumulative prefixes as non-final
    chunks and then one final chunk with the whole response, however
    long the timer is left running; this holds for any text and so for
    the canned response of any message.  The server's stream endpoint
    writes [n] frames: the first [n - 1] prefixes as non-final frames
    and the whole text as the [n]-th frame, which is the final one. *)
Theorem simulated_stream_events (message text : string) (extra : nat) :
  (Client.run (Client.startStream text)
     (repeat Client.Elapse (S (length (Str.split text)) + extra))).2
  = map Client.chunkOf (Spec.simulated text)
  ∧ (Client.run (Client.demoStream message)
       (repeat Client.Elapse
          (S (length (Str.split (Client.pickResponse message))) + extra))).2
    = map Client.chunkOf (Spec.simulated (Client.pickResponse message))
  ∧ Server.streamFrames text
    = map Server.frameOf
        (Spec.prefixes (Str.split text) (length (Str.split text) - 1)
         ++ [Spec.final text])
  ∧ length (Spec.prefixes (Str.split text) (length (Str.split text)))
    = length (Str.split text).
Proof.
  repeat split.
  - by rewrite client_run_complete.
  - unfold Client.demoStream. by rewrite client_run_complete.
  - apply streamFrames_closed_form.
  - apply prefixes_length.
Qed.

(** C1 as stated fails on the server: for a text of two words it
    writes one non-final frame, not two, before the final one. *)
Lemma server_stream_one_frame_short :
  Server.streamFrames "a b" = [Server.Data "a" false; Server.Data "a b" true]
  ∧ map Server.frameOf (Spec.simulated "a b")
    = [Server.Data "a" false; Server.Data "a b" false; Server.Data "a b" true]
  ∧ Server.streamFrames "a b" ≠ map Server.frameOf (Spec.simulated "a b").
Proof. vm_compute. repeat split; discriminate. Qed.

(** C2, as the code has it.  When the cleanup that [demoStream]
    returned is invoked after [k] chunks, [k] below the number of
    pieces, whatever happens later delivers nothing: exactly the first
    [k] prefixes were delivered, and the interval is cleared.  A stream
    left alone clears its interval itself when it delivers the final
    chunk.  The server's loop does not react to a closing client: the
    run is the same with or without the close. *)
Theorem cleanup_stops_demo_stream (text : string) (k : nat)
    (later : list Client.Event)
    (st : Server.Loop) (evs1 evs2 : list Server.LoopEvent) :
  (k < length (Str.split text))%nat →
  (Client.run (Client.startStream text)
     (repeat Client.Elapse k ++ Client.Cleanup :: later)).2
  = map Client.chunkOf (Spec.prefixes (Str.split text) k)
  ∧ Client.interval
      (Client.run (Client.startStream text)
         (repeat Client.Elapse k ++ Client.Cleanup :: later)).1 = false
  ∧ Client.interval
      (Client.run (Client.startStream text)
         (repeat Client.Elapse (S (length (Str.split text))))).1 = false
  ∧ Server.loopRun st (evs1 ++ Server.ClientClose :: evs2)
    = Server.loopRun st (evs1 ++ evs2).
Proof.
  intros Hk.
  rewrite client_run_app, client_run_elapse by lia.
  cbn [fst snd Client.run Client.step].
  rewrite client_run_cleared by reflexivity.
  cbn [fst snd]. rewrite !app_nil_r.
  repeat split.
  - replace (S (length (Str.split text)))
      with (S (length (Str.split text)) + 0)%nat by lia.
    by rewrite client_run_complete.
  - apply loopRun_close.
Qed.

Lemma cleanup_stops_demo_stream_witness :
  (Client.run (Client.startStream "a b c")
     (repeat Client.Elapse 1 ++ Client.Cleanup :: [Client.Elapse; Client.Elapse])).2
  = map Client.chunkOf (Spec.prefixes (Str.split "a b c") 1)
  ∧ Client.interval
      (Client.run (Client.startStream "a b c")
         (repeat Client.Elapse 1 ++ Client.Cleanup :: [Client.Elapse; Client.Elapse])).1
    = false
  ∧ Client.interval
      (Client.run (Client.startStream "a b c")
         (repeat Client.Elapse (S (length (Str.split "a b c"))))).1 = false
  ∧ Server.loopRun (Server.loopStart "a b c")
      ([Server.Resume] ++ Server.ClientClose :: [Server.Resume])
    = Server.loopRun (Server.loopStart "a b c")
        ([Server.Resume] ++ [Server.Resume]).
Proof.
  apply (cleanup_stops_demo_stream "a b c" 1 [Client.Elapse; Client.Elapse]
           (Server.loopStart "a b c") [Server.Resume] [Server.Resume]).
  vm_compute. lia.
Defined.

(** C2 as stated fails on the server: a client that closes the
    connection after the first of two frames does not keep the second
    one from being written. *)
Lemma server_stream_writes_after_close :
  Server.written
    (Server.loopRun (Server.loopStart "a b") [Server.Resume])
  = [Server.Data "a" false]
  ∧ Server.written
      (Server.loopRun (Server.loopStart "a b")
         [Server.Resume; Server.ClientClose; Server.Resume])
    = [Server.Data "a" false; Server.Data "a b" true]
  ∧ ¬ (∀ (text : string) (k : nat) (later : list Server.LoopEvent),
         (k < length (Str.split text))%nat →
         Server.written
           (Server.loopRun (Server.loopStart text)
              (repeat Server.Resume k ++ Server.ClientClose :: later))
         = Server.written
             (Server.loopRun (Server.loopStart text)
                (repeat Server.Resume k))).
Proof.
  split; [reflexivity |]. split; [reflexivity |].
  intros H. specialize (H "a b" 1%nat [Server.Resume]).
  vm_compute in H. specialize (H ltac:(lia)). discriminate.
Qed.

(** The fallback that [onerror] starts is out of reach of the cleanup
    that [streamMessage] returned: after it is invoked the demo stream
    still delivers. *)
Lemma returned_cleanup_misses_fallback :
  (Client.connectionRun "rag" Client.connected
     [Client.SourceError; Client.TimerElapse;
      Client.ReturnedCleanup; Client.TimerElapse]).2
  = [ {| Client.content := "Our"; Client.done := false |};
      {| Client.content := "Our RAG"; Client.done := false |} ].
Proof. reflexivity. Qed.

End Streams.

(** ** Sorting by a key, largest first *)

Section SortByKey.

Context {A : Type} (key : A → Z).

Let compareFn (a b : A) : Z := key b - key a.

Lemma insert_perm (x : A) (l : list A) : Js.insert compareFn x l ≡ₚ x :: l.
Proof.
  induction l as [|y l IH]; simpl; [done |].
  destruct (0 <? compareFn x y); [|done].
  by rewrite IH, Permutation_swap.
Qed.

Lemma sort_perm (l : list A) : Js.sort compareFn l ≡ₚ l.
Proof.
  induction l as [|x l IH]; simpl; [done |].
  by rewrite insert_perm, IH.
Qed.

Lemma insert_sorted (x : A) (l : list A) :
  StronglySorted (λ a b, key b ≤ key a) l →
  StronglySorted (λ a b, key b ≤ key a) (Js.insert compareFn x l).
Proof.
  induction 1 as [|y l Hl IH Hy]; simpl.
  - by repeat constructor.
  - destruct (Z.ltb_spec 0 (compareFn x y)) as [Hlt|Hge];
      [unfold compareFn in Hlt | unfold compareFn in Hge].
    + constructor; [done |].
      rewrite insert_perm. constructor; [lia | done].
    + constructor; [by constructor |].
      constructor; [lia |].
      eapply Forall_impl; [exact Hy |]. simpl. intros z Hz. lia.
Qed.

Lemma sort_sorted (l : list A) :
  StronglySorted (λ a b, key b ≤ key a) (Js.sort compareFn l).
Proof.
  induction l as [|x l IH]; simpl; [constructor | by apply insert_sorted].
Qed.

(** Stability: the elements of one key keep their order. *)
Lemma insert_stable (v : Z) (x : A) (l : list A) :
  filter (λ a, key a = v) (Js.insert compareFn x l)
  = filter (λ a, key a = v) (x :: l).
Proof.
  induction l as [|y l IH]; simpl; [done |].
  destruct (Z.ltb_spec 0 (compareFn x y)) as [Hlt|Hge]; [|done].
  unfold compareFn in Hlt.
  rewrite (filter_cons _ y), IH, !(filter_cons _ x), (filter_cons _ y).
  repeat case_decide; try done; lia.
Qed.

Lemma sort_stable (v : Z) (l : list A) :
  filter (λ a, key a = v) (Js.sort compareFn l) = filter (λ a, key a = v) l.
Proof.
  induction l as [|x l IH]; simpl; [done |].
  by rewrite insert_stable, !(filter_cons _ x), IH.
Qed.

End SortByKey.

(** ** Order of elements in a list *)

Section Order.

Context {A : Type}.

Lemma lookup_pair_sublist (l : list A) (i j : nat) (a b : A) :
  (i < j)%nat → l !! i = Some a → l !! j = Some b → [a; b] `sublist_of` l.
Proof.
  intros Hij Ha Hb.
  rewrite <- (take_drop_middle l i a Ha).
  apply sublist_inserts_l, sublist_skip, singleton_sublist_l.
  apply (list_elem_of_lookup_2 _ (j - S i)).
  rewrite lookup_drop. by replace (S i + (j - S i))%nat with j by lia.
Qed.

Lemma sublist_pair_lookup (l : list A) (a b : A) :
  [a; b] `sublist_of` l →
  ∃ i j, (i < j)%nat ∧ l !! i = Some a ∧ l !! j = Some b.
Proof.
  induction l as [|y l IH]; intros Hsub.
  - by apply sublist_nil_r in Hsub.
  - apply sublist_cons_r in Hsub as [Hsub | (l' & Heq & Hsub)].
    + destruct (IH Hsub) as (i & j & Hij & Ha & Hb).
      exists (S i), (S j). split; [lia | by split].
    + injection Heq as -> <-.
      apply singleton_sublist_l, list_elem_of_lookup_1 in Hsub as [j Hb].
      exists 0%nat, (S j). split; [lia | by split].
Qed.

Lemma sublist_filter_mono (P : A → Prop) `{!∀ x, Decision (P x)}
    (l1 l2 : list A) :
  l1 `sublist_of` l2 → filter P l1 `sublist_of` filter P l2.
Proof.
  induction 1 as [|x l1 l2 _ IH|x l1 l2 _ IH].
  - done.
  - rewrite !(filter_cons _ x).
    destruct (decide (P x)); [by constructor | done].
  - rewrite (filter_cons _ x).
    destruct (decide (P x)); [by constructor | done].
Qed.

Lemma StronglySorted_lookup (R : relation A) (l : list A) (i j : nat)
    (a b : A) :
  StronglySorted R l → (i < j)%nat →
  l !! i = Some a → l !! j = Some b → R a b.
Proof.
  intros Hl. revert i j. induction Hl as [|y l Hl IH Hy]; intros i j Hij Ha Hb.
  - done.
  - destruct j as [|j]; [lia |]. destruct i as [|i]; simpl in *.
    + injection Ha as ->. rewrite Forall_lookup in Hy. by eapply Hy.
    + apply (IH i j); [lia | done | done].
Qed.

Lemma StronglySorted_take (R : relation A) (l : list A) (n : nat) :
  StronglySorted R l → StronglySorted R (take n l).
Proof.
  intros Hl. revert n. induction Hl as [|y l Hl IH Hy]; intros [|n]; simpl;
    try constructor; [apply IH | by apply Forall_take].
Qed.

End Order.

(** ** Knowledge-base search *)

Section Search.

Lemma sortByRelevance_perm (l : list Server.Result.t) :
  Js.sort Server.byRelevance l ≡ₚ l.
Proof. exact (sort_perm Server.Result.relevance l). Qed.

Lemma sortByRelevance_sorted (l : list Server.Result.t) :
  StronglySorted
    (λ a b, Server.Result.relevance b ≤ Server.Result.relevance a)
    (Js.sort Server.byRelevance l).
Proof. exact (sort_sorted Server.Result.relevance l). Qed.

Lemma sortByRelevance_stable (v : Z) (l : list Server.Result.t) :
  filter (λ a, Server.Result.relevance a = v) (Js.sort Server.byRelevance l)
  = filter (λ a, Server.Result.relevance a = v) l.
Proof. exact (sort_stable Server.Result.relevance v l). Qed.

(** The [reduce] counts the matched keywords. *)
Lemma keywordScore_count (queryLower : string) (kws : list string) :
  Server.keywordScore queryLower kws
  = Z.of_nat (length (Spec.matchedKeywords queryLower kws)).
Proof.
  unfold Server.keywordScore, Spec.matchedKeywords.
  assert (∀ acc,
    fold_left
      (λ score keyword,
         score + (if Str.includes queryLower (Str.toLowerCase keyword)
                  then 1 else 0)) kws acc
    = acc + Z.of_nat (length
        (filter (λ kw, Str.includes queryLower (Str.toLowerCase kw) = true)
           kws))) as Hgen.
  { induction kws as [|kw kws IH]; intros acc; simpl; [lia |].
    rewrite IH, filter_cons.
    destruct (Str.includes queryLower (Str.toLowerCase kw));
      case_decide; try done; simpl; lia. }
  by rewrite Hgen.
Qed.

Lemma visit_app (queryLower : string) (acc : list Server.Result.t)
    (entry : string * Server.KnowledgeEntry) :
  Server.visit queryLower acc entry
  = acc ++ Server.visit queryLower [] entry.
Proof.
  destruct entry as [topic data]. unfold Server.visit.
  destruct (_ || _); [done | by rewrite app_nil_r].
Qed.

Lemma collect_cons (entry : string * Server.KnowledgeEntry)
    (kb : list (string * Server.KnowledgeEntry)) (query : string) :
  Server.collect (entry :: kb) query
  = Server.visit (Str.toLowerCase query) [] entry ++ Server.collect kb query.
Proof.
  unfold Server.collect. simpl.
  generalize (Server.visit (Str.toLowerCase query) [] entry) as acc.
  induction kb as [|e kb IH]; intros acc; simpl; [by rewrite app_nil_r |].
  rewrite IH, (IH (Server.visit _ [] e)), visit_app.
  by rewrite app_assoc.
Qed.

(** What one entry contributes: nothing, or one result whose relevance
    is the number of matched keywords, plus 5 when the topic occurs in
    the query. *)
Lemma visit_result (queryLower topic : string) (data : Server.KnowledgeEntry)
    (r : Server.Result.t) :
  r ∈ Server.visit queryLower [] (topic, data) →
  Server.Result.topic r = topic
  ∧ Server.Result.content r = Server.content data
  ∧ Server.Result.relevance r
    = Z.of_nat (length (Spec.matchedKeywords queryLower (Server.keywords data)))
      + (if Server.topicMatch queryLower topic then 5 else 0).
Proof.
  unfold Server.visit. rewrite keywordScore_count.
  destruct (_ || _); [|by intros ?%not_elem_of_nil].
  rewrite app_nil_l, list_elem_of_singleton. by intros ->.
Qed.

Lemma collect_result (kb : list (string * Server.KnowledgeEntry))
    (query : string) (r : Server.Result.t) :
  r ∈ Server.collect kb query →
  ∃ data,
    (Server.Result.topic r, data) ∈ kb
    ∧ Server.Result.content r = Server.content data
    ∧ Server.Result.relevance r
      = Z.of_nat (length (Spec.matchedKeywords (Str.toLowerCase query)
                            (Server.keywords data)))
        + (if Server.topicMatch (Str.toLowerCase query) (Server.Result.topic r)
           then 5 else 0).
Proof.
  induction kb as [|[topic data] kb IH]; [by intros ?%not_elem_of_nil |].
  rewrite collect_cons, elem_of_app. intros [Hr | Hr].
  - apply visit_result in Hr as (<- & Hc & Hrel).
    exists data. split; [left | done].
  - destruct (IH Hr) as (data' & Hin & Hrest).
    exists data'. split; [by right | done].
Qed.

(** The results are collected in the order of the entries. *)
Lemma collect_topics (kb : list (string * Server.KnowledgeEntry))
    (query : string) :
  Server.Result.topic <$> Server.collect kb query `sublist_of` kb.*1.
Proof.
  induction kb as [|[topic data] kb IH]; [done |].
  rewrite collect_cons, fmap_app, fmap_cons. unfold Server.visit.
  destruct (_ || _); simpl; by constructor.
Qed.

Lemma collect_none (kb : list (string * Server.KnowledgeEntry))
    (query : string) :
  (∀ topic data, (topic, data) ∈ kb →
     Server.topicMatch (Str.toLowerCase query) topic = false
     ∧ Spec.matchedKeywords (Str.toLowerCase query) (Server.keywords data) = []) →
  Server.collect kb query = [].
Proof.
  induction kb as [|[topic data] kb IH]; intros Hno; [done |].
  rewrite collect_cons, IH, app_nil_r.
  - destruct (Hno topic data) as [Ht Hk]; [left |].
    unfold Server.visit. by rewrite keywordScore_count, Hk, Ht.
  - intros t d Hin. apply Hno. by right.
Qed.

Lemma searchIn_sublist (kb : list (string * Server.KnowledgeEntry))
    (query : string) :
  Server.searchIn kb query
  `sublist_of` Js.sort Server.byRelevance (Server.collect kb query).
Proof. apply sublist_take. Qed.

Lemma searchIn_collected (kb : list (string * Server.KnowledgeEntry))
    (query : string) (r : Server.Result.t) :
  r ∈ Server.searchIn kb query → r ∈ Server.collect kb query.
Proof.
  intros Hr. rewrite <- (sortByRelevance_perm (Server.collect kb query)).
  eapply elem_of_sublist; [exact Hr | apply searchIn_sublist].
Qed.

Lemma knowledgeBase_topics_distinct : NoDup (Server.knowledgeBase.*1).
Proof. apply (bool_decide_unpack (NoDup _)). by vm_compute. Qed.

(** C3.  For every query the search returns at most three results;
    a result never has a higher relevance than one before it; of two
    results with the same relevance the one whose topic is written
    first in the knowledge base comes first (the topics are pairwise
    distinct, so the positions [p] and [q] are determined); and when no
    topic name and no keyword of any entry occurs in the query the
    result is empty. *)
Theorem search_top3_ranked (query : string) :
  (length (Server.searchKnowledgeBase query) ≤ 3)%nat
  ∧ (∀ (i j : nat) (a b : Server.Result.t),
       (i < j)%nat →
       Server.searchKnowledgeBase query !! i = Some a →
       Server.searchKnowledgeBase query !! j = Some b →
       Server.Result.relevance b ≤ Server.Result.relevance a
       ∧ (Server.Result.relevance a = Server.Result.relevance b →
          ∃ p q : nat,
            (p < q)%nat
            ∧ Server.knowledgeBase.*1 !! p = Some (Server.Result.topic a)
            ∧ Server.knowledgeBase.*1 !! q = Some (Server.Result.topic b)))
  ∧ NoDup (Server.knowledgeBase.*1)
  ∧ ((∀ (topic : string) (data : Server.KnowledgeEntry),
        (topic, data) ∈ Server.knowledgeBase →
        Server.topicMatch (Str.toLowerCase query) topic = false
        ∧ Spec.matchedKeywords (Str.toLowerCase query) (Server.keywords data)
          = []) →
     Server.searchKnowledgeBase query = []).
Proof.
  unfold Server.searchKnowledgeBase.
  set (kb := Server.knowledgeBase).
  split; [|split; [|split]].
  - unfold Server.searchIn, Js.slice0. rewrite length_take. lia.
  - intros i j a b Hij Ha Hb.
    pose proof (lookup_pair_sublist _ _ _ _ _ Hij Ha Hb) as Hab.
    split.
    + pose proof (sortByRelevance_sorted (Server.collect kb query)) as Hs.
      apply (StronglySorted_take _ _ 3) in Hs.
      exact (StronglySorted_lookup _ _ _ _ _ _ Hs Hij Ha Hb).
    + intros Heq.
      apply sublist_pair_lookup.
      transitivity (Server.Result.topic <$> Server.collect kb query);
        [|apply collect_topics].
      change [Server.Result.topic a; Server.Result.topic b]
        with (Server.Result.topic <$> [a; b]).
      apply fmap_sublist.
      set (P := λ r, Server.Result.relevance r = Server.Result.relevance a).
      assert (filter P [a; b] = [a; b]) as <-.
      { rewrite !filter_cons, filter_nil. unfold P.
        repeat case_decide; congruence. }
      transitivity (filter P (Server.collect kb query));
        [|apply sublist_filter].
      unfold P at 2.
      rewrite <- (sortByRelevance_stable _ (Server.collect kb query)).
      apply sublist_filter_mono.
      transitivity (Server.searchIn kb query);
        [exact Hab | apply searchIn_sublist].
  - apply knowledgeBase_topics_distinct.
  - intros Hno. unfold Server.searchIn. by rewrite collect_none.
Qed.

Lemma search_top3_ranked_witness :
  Server.searchKnowledgeBase "good morning" = []
  ∧ (∃ p q : nat,
       (p < q)%nat
       ∧ Server.knowledgeBase.*1 !! p = Some "NIST 800-88"
       ∧ Server.knowledgeBase.*1 !! q = Some "Blockchain Verification").
Proof.
  split.
  - apply (search_top3_ranked "good morning").
    intros topic data Hin.
    repeat (apply elem_of_cons in Hin as [Hin | Hin];
            [injection Hin as -> ->; by vm_compute |]).
    by apply not_elem_of_nil in Hin.
  - destruct (search_top3_ranked "sanitization and certificate process")
      as (_ & Hrank & _).
    destruct (Server.searchKnowledgeBase "sanitization and certificate process"
                !! 1%nat) as [a|] eqn:Ha; [|by vm_compute in Ha].
    destruct (Server.searchKnowledgeBase "sanitization and certificate process"
                !! 2%nat) as [b|] eqn:Hb; [|by vm_compute in Hb].
    destruct (Hrank 1%nat 2%nat a b) as [_ Htie]; [lia | done | done |].
    vm_compute in Ha, Hb. injection Ha as <-. injection Hb as <-.
    by apply Htie.
Defined.

(** C9.  Every returned result stems from an entry of the knowledge
    base under its topic, and its relevance is the number of that
    entry's keywords matched by the query, plus exactly 5 when the
    topic name occurs in the query and plus nothing when it does not. *)
Theorem topic_match_adds_five (query : string) :
  Forall
    (λ r,
       ∃ data : Server.KnowledgeEntry,
         (Server.Result.topic r, data) ∈ Server.knowledgeBase
         ∧ Server.Result.relevance r
           = Z.of_nat
               (length (Spec.matchedKeywords (Str.toLowerCase query)
                          (Server.keywords data)))
             + (if Str.includes (Str.toLowerCase query)
                     (Str.toLowerCase (Server.Result.topic r))
                then 5 else 0))
    (Server.searchKnowledgeBase query).
Proof.
  apply Forall_forall. intros r Hr.
  apply searchIn_collected, collect_result in Hr as (data & Hin & _ & Hrel).
  by exists data.
Qed.

End Search.

(** ** Session store *)

Section Sessions.

Implicit Types (sessions : gmap string Server.Session).

(** The loop only deletes: an absent id stays absent. *)
Lemma sweep_fold_absent (now : Z) (l : list (string * Server.Session))
    sessions (sid : string) :
  sessions !! sid = None →
  fold_left (Server.sweepVisit now) l sessions !! sid = None.
Proof.
  revert sessions. induction l as [|[k v] l IH]; intros sessions Hm; [done |].
  simpl. apply IH. destruct (_ <? _); [|done].
  destruct (decide (k = sid)) as [->|Hne];
    [apply lookup_delete_eq | by rewrite lookup_delete_ne].
Qed.

Lemma sweep_fold_expired (now : Z) (l : list (string * Server.Session))
    sessions (sid : string) (session : Server.Session) :
  (sid, session) ∈ l →
  Server.timeout < now - Server.lastActivity session →
  fold_left (Server.sweepVisit now) l sessions !! sid = None.
Proof.
  revert sessions. induction l as [|[k v] l IH]; intros sessions Hin Hexp.
  - by apply not_elem_of_nil in Hin.
  - apply elem_of_cons in Hin as [Heq | Hin]; simpl.
    + injection Heq as <- <-.
      destruct (Z.ltb_spec Server.timeout (now - Server.lastActivity session));
        [|lia].
      apply sweep_fold_absent, lookup_delete_eq.
    + by apply IH.
Qed.

Lemma sweep_fold_kept (now : Z) (l : list (string * Server.Session))
    sessions (sid : string) :
  (∀ session, (sid, session) ∈ l →
     now - Server.lastActivity session ≤ Server.timeout) →
  fold_left (Server.sweepVisit now) l sessions !! sid = sessions !! sid.
Proof.
  revert sessions. induction l as [|[k v] l IH]; intros sessions Hl; [done |].
  simpl. rewrite IH by (intros s Hs; apply Hl; by right).
  destruct (Z.ltb_spec Server.timeout (now - Server.lastActivity v)) as [Hlt|];
    [|done].
  destruct (decide (k = sid)) as [->|Hne]; [|by rewrite lookup_delete_ne].
  specialize (Hl v ltac:(left)). lia.
Qed.

Lemma sweep_lookup_expired (now : Z) sessions (sid : string)
    (session : Server.Session) :
  sessions !! sid = Some session →
  Server.timeout < now - Server.lastActivity session →
  Server.sweep now sessions !! sid = None.
Proof.
  intros Hs Ht. unfold Server.sweep.
  apply (sweep_fold_expired _ _ _ _ session); [|done].
  by apply elem_of_map_to_list.
Qed.

Lemma sweep_lookup_kept (now : Z) sessions (sid : string)
    (session : Server.Session) :
  sessions !! sid = Some session →
  now - Server.lastActivity session ≤ Server.timeout →
  Server.sweep now sessions !! sid = Some session.
Proof.
  intros Hs Ht. unfold Server.sweep.
  rewrite sweep_fold_kept; [done |].
  intros s' Hs'. apply elem_of_map_to_list in Hs'. congruence.
Qed.

(** The sweep creates nothing. *)
Lemma sweep_subset (now : Z) sessions (sid : string)
    (session : Server.Session) :
  Server.sweep now sessions !! sid = Some session →
  sessions !! sid = Some session.
Proof.
  intros Hs. destruct (sessions !! sid) as [s|] eqn:Hm.
  - destruct (Z.lt_ge_cases Server.timeout (now - Server.lastActivity s)).
    + by rewrite (sweep_lookup_expired _ _ _ s) in Hs.
    + by rewrite (sweep_lookup_kept _ _ _ s) in Hs by (done || lia).
  - unfold Server.sweep in Hs. by rewrite sweep_fold_absent in Hs.
Qed.

(** C8.  A sweep at time [now] removes every session that has been
    idle for more than the timeout of 30 minutes and leaves every
    session touched within the timeout in the store, as it was. *)
Theorem sweep_evicts_idle (now : Z) sessions (sid : string)
    (session : Server.Session) :
  sessions !! sid = Some session →
  Server.timeout = 30 * 60 * 1000
  ∧ (Server.timeout < now - Server.lastActivity session →
     Server.sweep now sessions !! sid = None)
  ∧ (now - Server.lastActivity session ≤ Server.timeout →
     Server.sweep now sessions !! sid = Some session).
Proof.
  intros Hs. split; [reflexivity |]. split; intros Ht.
  - by apply (sweep_lookup_expired _ _ _ session).
  - by apply sweep_lookup_kept.
Qed.

(** C10.  When [sessionId] is in the store, [getOrCreateSession]
    returns the stored session with [lastActivity] set to the current
    date and [id], [chatHistory] and [createdAt] as they were; the store
    holds that session under [sessionId], and every other id maps to
    what it mapped to before. *)
Theorem getOrCreateSession_existing (d : Server.Dates) (sessionId : string)
    sessions (session : Server.Session) :
  sessions !! sessionId = Some session →
  Server.id (Server.getOrCreateSession d sessionId sessions).1
  = Server.id session
  ∧ Server.chatHistory (Server.getOrCreateSession d sessionId sessions).1
    = Server.chatHistory session
  ∧ Server.createdAt (Server.getOrCreateSession d sessionId sessions).1
    = Server.createdAt session
  ∧ Server.lastActivity (Server.getOrCreateSession d sessionId sessions).1
    = Server.atTouch d
  ∧ (Server.getOrCreateSession d sessionId sessions).2 !! sessionId
    = Some (Server.getOrCreateSession d sessionId sessions).1
  ∧ (∀ other : string,
       other ≠ sessionId →
       (Server.getOrCreateSession d sessionId sessions).2 !! other
       = sessions !! other)
  ∧ dom (Server.getOrCreateSession d sessionId sessions).2 = dom sessions.
Proof.
  intros Hs. unfold Server.getOrCreateSession. rewrite Hs. simpl.
  rewrite Hs. simpl. repeat split.
  - apply lookup_insert_eq.
  - intros other Hne. by rewrite lookup_insert_ne.
  - rewrite dom_insert_L.
    assert (sessionId ∈ dom sessions) as Hdom by (apply elem_of_dom; eauto).
    apply subseteq_union_1_L. by apply singleton_subseteq_l.
Qed.

(** An unknown id gets a fresh session with an empty history. *)
Lemma getOrCreateSession_new (d : Server.Dates) (sessionId : string)
    sessions :
  sessions !! sessionId = None →
  (Server.getOrCreateSession d sessionId sessions).1
  = {| Server.id := sessionId; Server.chatHistory := [];
       Server.createdAt := Server.atCreated d;
       Server.lastActivity := Server.atTouch d |}
  ∧ (Server.getOrCreateSession d sessionId sessions).2
    = <[sessionId := (Server.getOrCreateSession d sessionId sessions).1]>
        sessions.
Proof.
  intros Hs. unfold Server.getOrCreateSession. rewrite Hs.
  rewrite lookup_insert_eq. simpl. split; [done |].
  by rewrite insert_insert_eq.
Qed.

(** In either case the store holds the returned session, touched at
    the current date. *)
Lemma getOrCreateSession_stored (d : Server.Dates) (sessionId : string)
    sessions :
  (Server.getOrCreateSession d sessionId sessions).2 !! sessionId
  = Some (Server.getOrCreateSession d sessionId sessions).1
  ∧ Server.lastActivity (Server.getOrCreateSession d sessionId sessions).1
    = Server.atTouch d.
Proof.
  unfold Server.getOrCreateSession.
  destruct (sessions !! sessionId) as [session|] eqn:Hs.
  - rewrite Hs. simpl. by rewrite lookup_insert_eq.
  - rewrite lookup_insert_eq. simpl. by rewrite lookup_insert_eq.
Qed.

(** A session that a request touched less than the timeout before the
    sweep survives it. *)
Lemma touched_session_survives (d : Server.Dates) (now : Z)
    (sessionId : string) sessions :
  now - Server.atTouch d ≤ Server.timeout →
  Server.sweep now (Server.getOrCreateSession d sessionId sessions).2
    !! sessionId
  = Some (Server.getOrCreateSession d sessionId sessions).1.
Proof.
  intros Ht. destruct (getOrCreateSession_stored d sessionId sessions)
    as [Hstored Hlast].
  apply sweep_lookup_kept; [done | by rewrite Hlast].
Qed.

Lemma sweep_evicts_idle_witness :
  Server.sweep Sample.now Sample.sessions !! "idle" = None
  ∧ Server.sweep Sample.now Sample.sessions !! "active" = Some Sample.active.
Proof.
  split.
  - apply (sweep_evicts_idle Sample.now Sample.sessions "idle" Sample.idle);
      [reflexivity | vm_compute; reflexivity].
  - apply (sweep_evicts_idle Sample.now Sample.sessions "active" Sample.active);
      [reflexivity | vm_compute; discriminate].
Defined.

Lemma getOrCreateSession_existing_witness :
  Server.chatHistory
    (Server.getOrCreateSession Sample.dates "active" Sample.sessions).1
  = Server.chatHistory Sample.active
  ∧ (Server.getOrCreateSession Sample.dates "active" Sample.sessions).2 !! "idle"
    = Some Sample.idle.
Proof.
  pose proof (getOrCreateSession_existing Sample.dates "active"
                Sample.sessions Sample.active) as H.
  destruct H as (_ & Hhist & _ & _ & _ & Hother & _); [reflexivity |].
  split; [exact Hhist |].
  rewrite Hother; [reflexivity | discriminate].
Defined.

End Sessions.

(** ** Generation and the chat endpoints *)

Section Handlers.

Implicit Types (sessions : gmap string Server.Session).

(** [generateGeminiResponse] calls the remote model exactly once,
    whatever comes back, with the key its client was built with. *)
Lemma generate_calls_once (key : string) (reply : Server.Reply)
    (message : string) (history : list Server.Content)
    (config : Server.Config.t) :
  (Server.generateGeminiResponse key reply message history config).2
  = [Server.chatCall key message history config].
Proof.
  unfold Server.generateGeminiResponse.
  destruct reply as [text|error]; [done |].
  by destruct (Server.mentionsApiKey error).
Qed.

(** The history a chat request without [chatHistory] is answered from:
    the session's turns so far and the user's new turn. *)
Lemma postChat_session_history (d : Server.Dates) (sid message : string)
    sessions :
  Server.chatHistory <$>
    (Server.pushTurn sid
       {| Server.role := "user"; Server.parts := [message] |}
       (Server.getOrCreateSession d sid sessions).2) !! sid
  = Some
      (match sessions !! sid with
       | Some session => Server.chatHistory session
       | None => []
       end ++ [ {| Server.role := "user"; Server.parts := [message] |} ]).
Proof.
  unfold Server.pushTurn, Server.getOrCreateSession.
  destruct (sessions !! sid) as [session|] eqn:Hs.
  - rewrite Hs. simpl. by rewrite lookup_alter_eq, lookup_insert_eq.
  - rewrite lookup_insert_eq. simpl.
    by rewrite lookup_alter_eq, lookup_insert_eq.
Qed.

(** A chat request with a message leads to exactly one call of the
    remote model, made with the server's client key. *)
Lemma postChat_calls_once (key : string) (d : Server.Dates)
    (reply : Server.Reply) (req : Server.ChatRequest.t) sessions :
  is_Some (Server.ChatRequest.message req) →
  ∃ call, Server.calls (Server.postChat key d reply req sessions) = [call]
          ∧ Server.apiKey call = key.
Proof.
  intros [message Hm]. unfold Server.postChat. rewrite Hm.
  destruct (Server.getOrCreateSession _ _ _) as [session sessions1].
  match goal with
  | |- context [Server.generateGeminiResponse ?k ?r ?m ?h ?c] =>
      pose proof (generate_calls_once k r m h c) as Hcalls;
      destruct (Server.generateGeminiResponse k r m h c) as [[text|error] made]
  end; simpl in *; subst made; eauto.
Qed.

(** What a request without [chatHistory] hands to the model. *)
Lemma postChat_uses_session_history (key : string) (d : Server.Dates)
    (reply : Server.Reply) (req : Server.ChatRequest.t) sessions
    (message : string) :
  Server.ChatRequest.message req = Some message →
  Server.ChatRequest.chatHistory req = None →
  ∃ call,
    Server.calls (Server.postChat key d reply req sessions) = [call]
    ∧ Server.history call
      = match sessions
              !! Server.orString (Server.ChatRequest.sessionHeader req) "default"
        with
        | Some session => Server.chatHistory session
        | None => []
        end ++ [ {| Server.role := "user"; Server.parts := [message] |} ].
Proof.
  intros Hm Hh. unfold Server.postChat. rewrite Hm, Hh.
  set (sid := Server.orString _ _).
  pose proof (postChat_session_history d sid message sessions) as Hhist.
  destruct (Server.getOrCreateSession d sid sessions) as [session sessions1].
  simpl in Hhist.
  destruct (Server.pushTurn sid _ sessions1 !! sid) as [stored|];
    [|done].
  injection Hhist as Hhist.
  match goal with
  | |- context [Server.generateGeminiResponse ?k ?r ?m ?h ?c] =>
      pose proof (generate_calls_once k r m h c) as Hcalls;
      destruct (Server.generateGeminiResponse k r m h c) as [[text|error] made]
  end; simpl in *; subst made; eexists; (split; [reflexivity |]); done.
Qed.

(** How a failed remote call comes out of [POST /api/chat]. *)
Lemma postChat_upstream_failure (key : string) (d : Server.Dates)
    (error : Server.Error.t) (req : Server.ChatRequest.t) sessions
    (message : string) :
  Server.ChatRequest.message req = Some message →
  Server.response
    (Server.postChat key d (Server.Throws error) req sessions)
  = if Server.mentionsApiKey error then
      {| Server.status := 200;
         Server.body :=
           Server.ChatBody Server.apiKeyFallback
             (Server.metadataModel (Server.ChatRequest.config req))
             (Server.orString (Server.ChatRequest.sessionHeader req) "default") |}
    else
      {| Server.status := 500;
         Server.body :=
           Server.ErrorBody "Failed to generate response"
             (Server.Error.message error) |}.
Proof.
  intros Hm. unfold Server.postChat. rewrite Hm.
  destruct (Server.getOrCreateSession _ _ _) as [session sessions1].
  unfold Server.generateGeminiResponse.
  by destruct (Server.mentionsApiKey error).
Qed.

(** C4, as the code has it.  Without a key in the environment (absent
    or empty) [server.js] exits with code 1 before it listens.  The
    full backend starts serving with a client built on the placeholder
    ['demo-key']; every chat request that carries a message then calls
    the remote model once, with that placeholder key, and when the call
    fails with an error about the API key the request is answered 200
    with the canned fallback text. *)
Theorem missing_key_policy (env : option string) (d : Server.Dates)
    (reply : Server.Reply) (req : Server.ChatRequest.t) sessions :
  Server.keyMissing env = true →
  SimpleServer.startup env = Server.Exits 1
  ∧ Server.startup env = Server.Serves "demo-key"
  ∧ (is_Some (Server.ChatRequest.message req) →
     ∃ call,
       Server.calls (Server.postChat "demo-key" d reply req sessions) = [call]
       ∧ Server.apiKey call = "demo-key")
  ∧ (∀ error,
       reply = Server.Throws error →
       Server.mentionsApiKey error = true →
       is_Some (Server.ChatRequest.message req) →
       Server.response (Server.postChat "demo-key" d reply req sessions)
       = {| Server.status := 200;
            Server.body :=
              Server.ChatBody Server.apiKeyFallback
                (Server.metadataModel (Server.ChatRequest.config req))
                (Server.orString (Server.ChatRequest.sessionHeader req)
                   "default") |}).
Proof.
  intros Hmissing.
  assert (env = None ∨ env = Some "") as Henv.
  { destruct env as [[|c k]|]; [by right | done | by left]. }
  split; [by destruct Henv as [-> | ->] |].
  split; [by destruct Henv as [-> | ->] |].
  split; [apply postChat_calls_once |].
  intros error -> Hkey [message Hm].
  by rewrite (postChat_upstream_failure _ _ _ _ _ _ Hm), Hkey.
Qed.

Lemma missing_key_policy_witness :
  SimpleServer.startup None = Server.Exits 1
  ∧ Server.startup None = Server.Serves "demo-key"
  ∧ (∃ call,
       Server.calls
         (Server.postChat "demo-key" Sample.dates
            (Server.Throws Sample.badKey) Sample.hello ∅) = [call]
       ∧ Server.apiKey call = "demo-key")
  ∧ Server.status
      (Server.response
         (Server.postChat "demo-key" Sample.dates
            (Server.Throws Sample.badKey) Sample.hello ∅)) = 200.
Proof.
  destruct (missing_key_policy None Sample.dates (Server.Throws Sample.badKey)
              Sample.hello ∅) as (Hexit & Hserve & Hcall & Hfallback);
    [reflexivity |].
  split; [exact Hexit |]. split; [exact Hserve |].
  split; [apply Hcall; by eexists |].
  rewrite (Hfallback Sample.badKey); [reflexivity | reflexivity | | by eexists].
  by vm_compute.
Defined.

(** C4 as stated fails on the full backend: started without a key it
    does not exit, and a chat request makes it call the remote model. *)
Lemma demo_mode_calls_remote :
  ¬ (∀ env : option string,
       Server.keyMissing env = true →
       (∃ code, Server.startup env = Server.Exits code)
       ∨ (∀ key d reply req sessions,
            Server.startup env = Server.Serves key →
            Server.calls (Server.postChat key d reply req sessions) = [])).
Proof.
  intros H. destruct (H None eq_refl) as [[code Hcode] | Hnone].
  - discriminate.
  - specialize (Hnone "demo-key" Sample.dates (Server.Text "ok")
                  Sample.hello ∅ eq_refl).
    vm_compute in Hnone. discriminate.
Qed.

(** C5, as the code has it.  [server.js] rejects a chat request whose
    [chatHistory] is absent or empty with status 400 and the error
    ['contents are required'], without calling the model.  The full
    backend validates nothing: a request without [message] gets an
    error response with a non-2xx status, no model call and an
    untouched session store; a request with a message and no
    [chatHistory] is served, the model being called once with the
    session's own history. *)
Theorem chat_request_validation (context key : string) (d : Server.Dates)
    (reply : Server.Reply) (contents : option (list Server.Content))
    (req : Server.ChatRequest.t) sessions :
  ((contents = None ∨ contents = Some []) →
   SimpleServer.postChat context key reply contents
   = ({| SimpleServer.status := 400;
         SimpleServer.body := SimpleServer.ErrorBody "contents are required" |},
      []))
  ∧ (Server.ChatRequest.message req = None →
     Server.calls (Server.postChat key d reply req sessions) = []
     ∧ Server.store (Server.postChat key d reply req sessions) = sessions
     ∧ 400 ≤ Server.status
               (Server.response (Server.postChat key d reply req sessions))
     ∧ ∃ detail,
         Server.body (Server.response (Server.postChat key d reply req sessions))
         = Server.ErrorBody "Failed to generate response" detail)
  ∧ (∀ message,
       Server.ChatRequest.message req = Some message →
       Server.ChatRequest.chatHistory req = None →
       ∃ call,
         Server.calls (Server.postChat key d reply req sessions) = [call]
         ∧ Server.history call
           = match sessions
                   !! Server.orString (Server.ChatRequest.sessionHeader req)
                        "default"
             with
             | Some session => Server.chatHistory session
             | None => []
             end ++ [ {| Server.role := "user"; Server.parts := [message] |} ]).
Proof.
  split; [|split].
  - by intros [-> | ->].
  - intros Hm. unfold Server.postChat. rewrite Hm. simpl.
    repeat split; [lia | by eexists].
  - intros message. apply postChat_uses_session_history.
Qed.

Lemma chat_request_validation_witness :
  SimpleServer.postChat "context" "key" (Server.Text "ok") (Some [])
  = ({| SimpleServer.status := 400;
        SimpleServer.body := SimpleServer.ErrorBody "contents are required" |},
     [])
  ∧ (∃ call,
       Server.calls
         (Server.postChat "key" Sample.dates (Server.Text "ok") Sample.hello
            Sample.sessions) = [call]
       ∧ Server.history call
         = [ {| Server.role := "user"; Server.parts := ["hello"] |} ]).
Proof.
  destruct (chat_request_validation "context" "key" Sample.dates
              (Server.Text "ok") (Some []) Sample.hello Sample.sessions)
    as (Hsimple & _ & Hserved).
  split; [apply Hsimple; by right |].
  apply (Hserved "hello"); reflexivity.
Defined.

(** C5 as stated fails on the full backend: a request that carries a
    message but no [chatHistory] is answered 200 after a call of the
    model. *)
Lemma chat_without_history_is_served :
  Server.status
    (Server.response
       (Server.postChat "key" Sample.dates (Server.Text "ok") Sample.hello ∅))
  = 200
  ∧ length
      (Server.calls
         (Server.postChat "key" Sample.dates (Server.Text "ok") Sample.hello ∅))
    = 1%nat
  ∧ ¬ (∀ key d reply req sessions,
         (Server.ChatRequest.message req = None
          ∨ Server.ChatRequest.chatHistory req = None
          ∨ Server.ChatRequest.chatHistory req = Some []) →
         (400 ≤ Server.status
                  (Server.response (Server.postChat key d reply req sessions))
          < 500)
         ∧ Server.calls (Server.postChat key d reply req sessions) = []).
Proof.
  split; [reflexivity |]. split; [reflexivity |].
  intros H.
  destruct (H "key" Sample.dates (Server.Text "ok") Sample.hello ∅) as [_ Hc].
  - right. by left.
  - vm_compute in Hc. discriminate.
Qed.

(** What the generation settings come to when the request supplies
    them and when it does not. *)
Lemma generationConfig_defaults (config : Server.Config.t) :
  (∀ n, Server.Config.maxTokens config = Some n → n ≠ 0 →
        Server.GenerationConfig.maxOutputTokens
          (Server.generationConfig config) = n)
  ∧ (Server.Config.maxTokens config = None →
     Server.GenerationConfig.maxOutputTokens
       (Server.generationConfig config) = 2048)
  ∧ (∀ t, Server.Config.temperature config = Some t → ¬ (t == 0)%Q →
          Server.GenerationConfig.temperature
            (Server.generationConfig config) = t)
  ∧ (Server.Config.temperature config = None →
     Server.GenerationConfig.temperature
       (Server.generationConfig config) = (7 # 10)%Q).
Proof.
  unfold Server.generationConfig, Server.orZ, Server.orQ. simpl.
  repeat split.
  - intros n -> Hn. by destruct (Z.eqb_spec n 0).
  - by intros ->.
  - intros t -> Ht. destruct (Qeq_bool t 0) eqn:Hq; [|done].
    by apply Qeq_bool_iff in Hq.
  - by intros ->.
Qed.

(** C6 at [config = { temperature: 0 }]: the temperature handed to the
    model is 0.7, not the 0 that was supplied, because [0 || 0.7] is
    [0.7]; the call of the model carries that value. *)
Theorem temperature_zero_is_replaced (key message : string)
    (history : list Server.Content) :
  Server.GenerationConfig.temperature
    (Server.generationConfig
       {| Server.Config.model := None;
          Server.Config.maxTokens := None;
          Server.Config.temperature := Some 0%Q;
          Server.Config.ragEnabled := None |})
  = (7 # 10)%Q
  ∧ Server.GenerationConfig.temperature
      (Server.generation
         (Server.chatCall key message history
            {| Server.Config.model := None;
               Server.Config.maxTokens := None;
               Server.Config.temperature := Some 0%Q;
               Server.Config.ragEnabled := None |}))
    = (7 # 10)%Q
  ∧ ¬ ((7 # 10) == 0)%Q.
Proof.
  split; [reflexivity |]. split; [reflexivity |].
  intros H. vm_compute in H. discriminate.
Qed.

(** C7, as the code has it.  When the remote call fails with an error
    whose message mentions ['API key'], [generateGeminiResponse]
    returns the canned fallback text and the chat request is answered
    200 with it.  For every other failure it rethrows the error, and the
    chat request is answered 500 with the error's message.  [server.js]
    answers 500 for every failure. *)
Theorem upstream_failure_handling (context key : string) (d : Server.Dates)
    (error : Server.Error.t) (message : string)
    (history : list Server.Content) (config : Server.Config.t)
    (req : Server.ChatRequest.t) sessions :
  Server.ChatRequest.message req = Some message →
  (Server.mentionsApiKey error = true →
   (Server.generateGeminiResponse key (Server.Throws error) message history
      config).1 = inl Server.apiKeyFallback
   ∧ Server.response
       (Server.postChat key d (Server.Throws error) req sessions)
     = {| Server.status := 200;
          Server.body :=
            Server.ChatBody Server.apiKeyFallback
              (Server.metadataModel (Server.ChatRequest.config req))
              (Server.orString (Server.ChatRequest.sessionHeader req)
                 "default") |})
  ∧ (Server.mentionsApiKey error = false →
     (Server.generateGeminiResponse key (Server.Throws error) message history
        config).1 = inr error
     ∧ Server.response
         (Server.postChat key d (Server.Throws error) req sessions)
       = {| Server.status := 500;
            Server.body :=
              Server.ErrorBody "Failed to generate response"
                (Server.Error.message error) |})
  ∧ (SimpleServer.postChat context key (Server.Throws error) (Some history)).1
    = match history with
      | [] => {| SimpleServer.status := 400;
                 SimpleServer.body :=
                   SimpleServer.ErrorBody "contents are required" |}
      | _ => {| SimpleServer.status := 500;
                SimpleServer.body :=
                  SimpleServer.ErrorBody
                    "Failed to communicate with the Gemini API." |}
      end.
Proof.
  intros Hm.
  rewrite (postChat_upstream_failure _ _ _ _ _ _ Hm).
  unfold Server.generateGeminiResponse.
  split; [|split].
  - by intros ->.
  - by intros ->.
  - by destruct history.
Qed.

Lemma upstream_failure_handling_witness :
  Server.status
    (Server.response
       (Server.postChat "key" Sample.dates (Server.Throws Sample.badKey)
          Sample.hello ∅)) = 200
  ∧ Server.status
      (Server.response
         (Server.postChat "key" Sample.dates (Server.Throws Sample.networkDown)
            Sample.hello ∅)) = 500.
Proof.
  split.
  - destruct (upstream_failure_handling "context" "key" Sample.dates
                Sample.badKey "hello" [] Server.Config.empty Sample.hello ∅)
      as ([_ Hok] & _ & _); [reflexivity | by vm_compute |].
    by rewrite Hok.
  - destruct (upstream_failure_handling "context" "key" Sample.dates
                Sample.networkDown "hello" [] Server.Config.empty Sample.hello ∅)
      as (_ & [_ Hfail] & _); [reflexivity | by vm_compute |].
    by rewrite Hfail.
Defined.

(** C7 as stated fails: a failure that does not mention the API key is
    rethrown by [generateGeminiResponse] and answered 500. *)
Lemma network_failure_is_propagated :
  (Server.generateGeminiResponse "key" (Server.Throws Sample.networkDown)
     "hello" [] Server.Config.empty).1 = inr Sample.networkDown
  ∧ Server.status
      (Server.response
         (Server.postChat "key" Sample.dates (Server.Throws Sample.networkDown)
            Sample.hello ∅)) = 500
  ∧ ¬ (∀ key d error req sessions message history config,
         Server.ChatRequest.message req = Some message →
         (∃ text,
            (Server.generateGeminiResponse key (Server.Throws error) message
               history config).1 = inl text)
         ∧ Server.status
             (Server.response
                (Server.postChat key d (Server.Throws error) req sessions))
           < 500).
Proof.
  split; [reflexivity |]. split; [reflexivity |].
  intros H.
  destruct (H "key" Sample.dates Sample.networkDown Sample.hello ∅ "hello" []
              Server.Config.empty eq_refl) as [[text Ht] _].
  vm_compute in Ht. discriminate.
Qed.

End Handlers.

(** ** More on the search *)

Section SearchRanking.

Lemma lowerChar_idempotent (c : ascii) :
  Str.lowerChar (Str.lowerChar c) = Str.lowerChar c.
Proof. by destruct c as [[] [] [] [] [] [] [] []]. Qed.

Lemma toLowerCase_idempotent (s : string) :
  Str.toLowerCase (Str.toLowerCase s) = Str.toLowerCase s.
Proof.
  induction s as [|c s IH]; [done |].
  simpl. by rewrite lowerChar_idempotent, IH.
Qed.

(** An entry is collected exactly when it scored or its topic matched,
    and then with a relevance of at least 1. *)
Lemma visit_selected (queryLower topic : string)
    (data : Server.KnowledgeEntry) :
  Server.visit queryLower [] (topic, data)
  = if bool_decide
         (Server.topicMatch queryLower topic = true
          ∨ Spec.matchedKeywords queryLower (Server.keywords data) ≠ [])
    then [ {| Server.Result.topic := topic;
              Server.Result.content := Server.content data;
              Server.Result.relevance :=
                Z.of_nat (length (Spec.matchedKeywords queryLower
                                    (Server.keywords data)))
                + (if Server.topicMatch queryLower topic then 5 else 0) |} ]
    else [].
Proof.
  unfold Server.visit. rewrite keywordScore_count.
  destruct (Spec.matchedKeywords queryLower (Server.keywords data))
    as [|kw kws];
    destruct (Server.topicMatch queryLower topic);
    case_bool_decide as Hd; try reflexivity; exfalso;
    [apply Hd; by left | by destruct Hd | apply Hd; by left
    | apply Hd; by right].
Qed.

Lemma collect_relevance_positive (kb : list (string * Server.KnowledgeEntry))
    (query : string) (r : Server.Result.t) :
  r ∈ Server.collect kb query → 1 ≤ Server.Result.relevance r.
Proof.
  induction kb as [|[topic data] kb IH]; [by intros ?%not_elem_of_nil |].
  rewrite collect_cons, elem_of_app, visit_selected. intros [Hr | Hr]; [|auto].
  case_bool_decide as Hd; [|by apply not_elem_of_nil in Hr].
  apply list_elem_of_singleton in Hr as ->. simpl.
  destruct Hd as [-> | Hne]; [lia |].
  destruct (Spec.matchedKeywords _ _); [done |].
  destruct (Server.topicMatch _ _); simpl length; lia.
Qed.

Lemma collect_complete (kb : list (string * Server.KnowledgeEntry))
    (query topic : string) (data : Server.KnowledgeEntry) :
  (topic, data) ∈ kb →
  Server.topicMatch (Str.toLowerCase query) topic = true
  ∨ Spec.matchedKeywords (Str.toLowerCase query) (Server.keywords data) ≠ [] →
  {| Server.Result.topic := topic;
     Server.Result.content := Server.content data;
     Server.Result.relevance :=
       Z.of_nat (length (Spec.matchedKeywords (Str.toLowerCase query)
                           (Server.keywords data)))
       + (if Server.topicMatch (Str.toLowerCase query) topic then 5 else 0) |}
  ∈ Server.collect kb query.
Proof.
  intros Hin Hmatch. induction kb as [|e kb IH];
    [by apply not_elem_of_nil in Hin |].
  rewrite collect_cons, elem_of_app.
  apply elem_of_cons in Hin as [<- | Hin]; [left | right; auto].
  rewrite visit_selected, bool_decide_eq_true_2 by done. left.
Qed.

(** X1.  Every result has a relevance of at least 1 and at most 12:
    an entry is returned only when a keyword or its topic matched, no
    entry has more than seven keywords, and the topic adds five. *)
Theorem search_relevance_bounds (query : string) :
  Forall (λ r, 1 ≤ Server.Result.relevance r ≤ 12)
         (Server.searchKnowledgeBase query).
Proof.
  apply Forall_forall. intros r Hr.
  apply searchIn_collected in Hr. split.
  - by apply collect_relevance_positive in Hr.
  - apply collect_result in Hr as (data & Hin & _ & ->).
    assert (length (Server.keywords data) ≤ 7)%nat as Hlen.
    { revert Hin. generalize (Server.Result.topic r). intros t Hin.
      repeat (apply elem_of_cons in Hin as [Hin | Hin];
              [injection Hin as -> ->; simpl; lia |]).
      by apply not_elem_of_nil in Hin. }
    pose proof (length_filter
      (λ kw, Str.includes (Str.toLowerCase query) (Str.toLowerCase kw) = true)
      (Server.keywords data)) as Hf.
    unfold Spec.matchedKeywords.
    destruct (Server.topicMatch _ _); lia.
Qed.

(** X2.  No topic is returned twice. *)
Theorem search_topics_distinct (query : string) :
  NoDup (Server.Result.topic <$> Server.searchKnowledgeBase query).
Proof.
  apply (sublist_NoDup _
           (Server.Result.topic <$>
              Js.sort Server.byRelevance
                (Server.collect Server.knowledgeBase query))).
  - rewrite sortByRelevance_perm.
    apply (sublist_NoDup _ (Server.knowledgeBase.*1));
      [apply knowledgeBase_topics_distinct | apply collect_topics].
  - apply fmap_sublist, searchIn_sublist.
Qed.

(** X3.  The results are the best matches: an entry of the knowledge
    base whose topic or one of whose keywords occurs in the query is
    either returned under its topic, or three results are returned and
    each of them is at least as relevant as that entry. *)
Theorem search_returns_best (query topic : string)
    (data : Server.KnowledgeEntry) :
  (topic, data) ∈ Server.knowledgeBase →
  Server.topicMatch (Str.toLowerCase query) topic = true
  ∨ Spec.matchedKeywords (Str.toLowerCase query) (Server.keywords data) ≠ [] →
  (∃ r, r ∈ Server.searchKnowledgeBase query ∧ Server.Result.topic r = topic)
  ∨ (length (Server.searchKnowledgeBase query) = 3%nat
     ∧ Forall
         (λ r,
            Z.of_nat (length (Spec.matchedKeywords (Str.toLowerCase query)
                                (Server.keywords data)))
            + (if Server.topicMatch (Str.toLowerCase query) topic
               then 5 else 0)
            ≤ Server.Result.relevance r)
         (Server.searchKnowledgeBase query)).
Proof.
  intros Hin Hmatch.
  pose proof (collect_complete _ query topic data Hin Hmatch) as Hc.
  set (e := {| Server.Result.topic := topic |}) in Hc.
  rewrite <- (sortByRelevance_perm (Server.collect _ query)) in Hc.
  apply list_elem_of_lookup_1 in Hc as [j Hj].
  unfold Server.searchKnowledgeBase, Server.searchIn, Js.slice0.
  set (sorted := Js.sort Server.byRelevance _) in *.
  destruct (decide (j < 3)%nat) as [Hlt | Hge].
  - left. exists e. split; [|done].
    apply (list_elem_of_lookup_2 _ j). by rewrite lookup_take_lt.
  - right. pose proof (lookup_lt_Some _ _ _ Hj) as Hlen. split.
    + rewrite length_take. lia.
    + apply Forall_lookup. intros i r Hr.
      apply lookup_take_Some in Hr as [Hr Hi].
      pose proof (sortByRelevance_sorted
                    (Server.collect Server.knowledgeBase query)) as Hs.
      exact (StronglySorted_lookup _ _ i j r e Hs ltac:(lia) Hr Hj).
Qed.

Lemma search_returns_best_witness :
  ∃ r, r ∈ Server.searchKnowledgeBase "is my proof tamper-safe?"
       ∧ Server.Result.topic r = "Blockchain Verification".
Proof.
  destruct (Server.knowledgeBase !! 1%nat) as [[topic data]|] eqn:He;
    [|by vm_compute in He].
  destruct (search_returns_best "is my proof tamper-safe?" topic data)
    as [Hfound | [Hlen _]].
  - by apply (list_elem_of_lookup_2 _ 1).
  - vm_compute in He. injection He as <- <-. right. by vm_compute.
  - vm_compute in He. injection He as <- _. exact Hfound.
  - by vm_compute in Hlen.
Defined.

(** X4.  The search does not distinguish upper and lower case in the
    query. *)
Theorem search_ignores_case (query : string) :
  Server.searchKnowledgeBase (Str.toLowerCase query)
  = Server.searchKnowledgeBase query.
Proof.
  unfold Server.searchKnowledgeBase, Server.searchIn, Server.collect.
  by rewrite toLowerCase_idempotent.
Qed.

End SearchRanking.

(** ** More on strings *)

Section StringsRoundTrip.

Lemma split_cons_other (c : ascii) (s : string) :
  c ≠ " "%char →
  Str.split (String c s)
  = match Str.split s with
    | w :: ws => String c w :: ws
    | [] => [String c EmptyString]
    end.
Proof. intros Hc. simpl. by rewrite bool_decide_eq_false_2. Qed.

Lemma includes_space_cons (c : ascii) (w : string) :
  Str.includes (String c w) " " = false →
  c ≠ " "%char ∧ Str.includes w " " = false.
Proof.
  simpl. intros [Hc Hw]%orb_false_elim. split; [|done].
  intros ->. by rewrite bool_decide_eq_true_2 in Hc.
Qed.

(** A word without a space in front of a space is cut off as one
    piece. *)
Lemma split_word_space (w rest : string) :
  Str.includes w " " = false →
  Str.split (w +:+ " " +:+ rest) = w :: Str.split rest.
Proof.
  induction w as [|c w IH]; intros Hw; [reflexivity |].
  apply includes_space_cons in Hw as [Hc Hw].
  rewrite append_cons, (split_cons_other _ _ Hc). by rewrite IH.
Qed.

Lemma split_word (w : string) :
  Str.includes w " " = false → Str.split w = [w].
Proof.
  induction w as [|c w IH]; intros Hw; [reflexivity |].
  apply includes_space_cons in Hw as [Hc Hw].
  rewrite (split_cons_other _ _ Hc). by rewrite IH.
Qed.

(** The first piece of a text is followed by a space or by nothing. *)
Lemma split_head (s w : string) (ws : list string) :
  Str.split s = w :: ws →
  s = w ∨ ∃ rest, s = w +:+ " " +:+ rest.
Proof.
  intros Hs. pose proof (join_split s) as Hj. rewrite Hs in Hj.
  destruct ws as [|w' ws]; [by left |]. right.
  rewrite join_cons in Hj by done. by eexists.
Qed.

(** X5.  Cutting at single spaces and joining with single spaces are
    inverse to each other: joining the pieces of a text gives the text
    back, and cutting the join of a non-empty list of pieces, none of
    which contains a space, gives the pieces back. *)
Theorem split_join_roundtrip (s : string) (ws : list string) :
  Str.join " " (Str.split s) = s
  ∧ (ws ≠ [] →
     Forall (λ w, Str.includes w " " = false) ws →
     Str.split (Str.join " " ws) = ws).
Proof.
  split; [apply join_split |].
  induction ws as [|w ws IH]; [done |]. intros _ Hall.
  apply Forall_cons in Hall as [Hw Hws].
  destruct ws as [|w' ws]; [by apply split_word |].
  rewrite join_cons by done.
  rewrite split_word_space by done. by rewrite IH.
Qed.

Lemma split_join_roundtrip_witness :
  Str.split (Str.join " " ["secure"; ""; "erase"]) = ["secure"; ""; "erase"].
Proof.
  apply (split_join_roundtrip "" ["secure"; ""; "erase"]); [done |].
  repeat constructor.
Defined.

End StringsRoundTrip.

(** ** More on the session store *)

Section SessionStore.

Implicit Types (sessions : gmap string Server.Session).

Lemma sweep_lookup (now : Z) sessions (sid : string) :
  Server.sweep now sessions !! sid
  = match sessions !! sid with
    | Some session =>
        if Server.timeout <? now - Server.lastActivity session
        then None else Some session
    | None => None
    end.
Proof.
  destruct (sessions !! sid) as [session|] eqn:Hs.
  - destruct (Z.ltb_spec Server.timeout (now - Server.lastActivity session)).
    + by apply (sweep_lookup_expired _ _ _ session).
    + by apply sweep_lookup_kept.
  - unfold Server.sweep. by apply sweep_fold_absent.
Qed.

(** X6.  A sweep keeps exactly the sessions that are within the
    timeout, and a later sweep makes an earlier one redundant; in
    particular a sweep repeated at the same time changes nothing. *)
Theorem sweep_filters_and_composes (now later : Z) sessions :
  Server.sweep now sessions
  = filter (λ entry, now - Server.lastActivity entry.2 ≤ Server.timeout)
           sessions
  ∧ (now ≤ later →
     Server.sweep later (Server.sweep now sessions)
     = Server.sweep later sessions).
Proof.
  split.
  - apply map_eq. intros sid. rewrite sweep_lookup.
    destruct (sessions !! sid) as [session|] eqn:Hs.
    + destruct (Z.ltb_spec Server.timeout (now - Server.lastActivity session)).
      * symmetry. apply map_lookup_filter_None. right.
        intros s' Hs'. simpl. assert (s' = session) as -> by congruence. lia.
      * symmetry. by apply map_lookup_filter_Some.
    + symmetry. apply map_lookup_filter_None. by left.
  - intros Hle. apply map_eq. intros sid. rewrite !sweep_lookup.
    destruct (sessions !! sid) as [session|]; [|done].
    destruct (Z.ltb_spec Server.timeout (now - Server.lastActivity session));
      [|done].
    destruct (Z.ltb_spec Server.timeout (later - Server.lastActivity session));
      [done | lia].
Qed.

Lemma sweep_filters_and_composes_witness :
  Server.sweep 2500000 (Server.sweep Sample.now Sample.sessions)
  = Server.sweep 2500000 Sample.sessions.
Proof.
  apply (sweep_filters_and_composes Sample.now 2500000 Sample.sessions).
  by vm_compute.
Defined.

(** X7.  For an id that is not in the store, [getOrCreateSession]
    returns a new session with that id, an empty history and the
    current date as last activity, puts it into the store and leaves
    every other id as it was. *)
Theorem getOrCreateSession_fresh (d : Server.Dates) (sessionId : string)
    sessions :
  sessions !! sessionId = None →
  (Server.getOrCreateSession d sessionId sessions).1
  = {| Server.id := sessionId; Server.chatHistory := [];
       Server.createdAt := Server.atCreated d;
       Server.lastActivity := Server.atTouch d |}
  ∧ (Server.getOrCreateSession d sessionId sessions).2 !! sessionId
    = Some (Server.getOrCreateSession d sessionId sessions).1
  ∧ (∀ other : string,
       other ≠ sessionId →
       (Server.getOrCreateSession d sessionId sessions).2 !! other
       = sessions !! other)
  ∧ size (Server.getOrCreateSession d sessionId sessions).2
    = S (size sessions).
Proof.
  intros Hs. unfold Server.getOrCreateSession. rewrite Hs.
  rewrite lookup_insert_eq. simpl. rewrite insert_insert_eq.
  repeat split.
  - apply lookup_insert_eq.
  - intros other Hne. by rewrite lookup_insert_ne.
  - by apply map_size_insert_None.
Qed.

Lemma getOrCreateSession_fresh_witness :
  Server.chatHistory
    (Server.getOrCreateSession Sample.dates "new" Sample.sessions).1 = []
  ∧ size (Server.getOrCreateSession Sample.dates "new" Sample.sessions).2
    = 3%nat.
Proof.
  destruct (getOrCreateSession_fresh Sample.dates "new" Sample.sessions)
    as (Hnew & _ & _ & Hsize); [reflexivity |].
  split; [by rewrite Hnew | by rewrite Hsize].
Defined.

(** X8.  A conversation does not outlive its expiry: when a session
    has been swept, the next request under its id starts from an empty
    history. *)
Theorem expired_session_restarts (d : Server.Dates) (now : Z)
    (sessionId : string) sessions (session : Server.Session) :
  sessions !! sessionId = Some session →
  Server.timeout < now - Server.lastActivity session →
  Server.chatHistory
    (Server.getOrCreateSession d sessionId (Server.sweep now sessions)).1
  = []
  ∧ Server.createdAt
      (Server.getOrCreateSession d sessionId (Server.sweep now sessions)).1
    = Server.atCreated d.
Proof.
  intros Hs Hexp.
  pose proof (sweep_lookup_expired now sessions sessionId session Hs Hexp)
    as Hgone.
  unfold Server.getOrCreateSession. rewrite Hgone.
  by rewrite lookup_insert_eq.
Qed.

Lemma expired_session_restarts_witness :
  Server.chatHistory
    (Server.getOrCreateSession Sample.dates "active"
       (Server.sweep 3400000 Sample.sessions)).1 = [].
Proof.
  apply (expired_session_restarts Sample.dates 3400000 "active"
           Sample.sessions Sample.active); [reflexivity | by vm_compute].
Defined.

End SessionStore.

(** ** More on the chat endpoint *)

Section ChatEndpoint.

Implicit Types (sessions : gmap string Server.Session).

(** What [generateGeminiResponse] comes back with depends on the reply
    of the remote model only. *)
Lemma generate_result (key : string) (reply : Server.Reply)
    (message : string) (history : list Server.Content)
    (config : Server.Config.t) :
  (Server.generateGeminiResponse key reply message history config).1
  = match reply with
    | Server.Text text => inl text
    | Server.Throws error =>
        if Server.mentionsApiKey error then inl Server.apiKeyFallback
        else inr error
    end.
Proof.
  unfold Server.generateGeminiResponse.
  destruct reply as [text|error]; [done |].
  by destruct (Server.mentionsApiKey error).
Qed.










(** X11.  A history that the client sends is handed to the model as it
    is, even when it is empty: the session's own history and the new
    user turn are not part of it. *)
Theorem postChat_client_history (key : string) (d : Server.Dates)
    (reply : Server.Reply) (req : Server.ChatRequest.t) sessions
    (message : string) (history : list Server.Content) :
  Server.ChatRequest.message req = Some message →
  Server.ChatRequest.chatHistory req = Some history →
  Server.history <$> Server.calls (Server.postChat key d reply req sessions)
  = [history].
Proof.
  intros Hm Hh. unfold Server.postChat. rewrite Hm, Hh.
  destruct (Server.getOrCreateSession _ _ _) as [session sessions1].
  match goal with
  | |- context [Server.generateGeminiResponse ?k ?r ?m ?h ?c] =>
      pose proof (generate_calls_once k r m h c) as Hcalls;
      destruct (Server.generateGeminiResponse k r m h c) as [[text|error] made]
  end; simpl in *; by subst made.
Qed.

Lemma postChat_client_history_witness :
  Server.history <$>
    Server.calls
      (Server.postChat "key" Sample.dates (Server.Text "ok")
         {| Server.ChatRequest.sessionHeader := Some "active";
            Server.ChatRequest.message := Some "again";
            Server.ChatRequest.chatHistory := Some [];
            Server.ChatRequest.config := None |}
         Sample.sessions)
  = [[]].
Proof.
  apply (postChat_client_history "key" Sample.dates (Server.Text "ok") _
           Sample.sessions "again" []); reflexivity.
Defined.

End ChatEndpoint.

(** ** The other endpoints *)

Section Endpoints.

Implicit Types (sessions : gmap string Server.Session).



(** X13.  Whatever the model comes back with, the stream endpoint
    writes at least one frame, flags the last frame as done and no
    frame before it. *)
Theorem getStream_ends_with_done (key : string) (d : Server.Dates)
    (reply : Server.Reply) (message : string) (sessionId : option string)
    sessions :
  ∃ (before : list Server.Frame) (last : Server.Frame),
    (Server.getStream key d reply message sessionId sessions).1.1
    = before ++ [last]
    ∧ Forall (λ f, Api.done (Api.ofFrame f) = false) before
    ∧ Api.done (Api.ofFrame last) = true.
Proof.
  unfold Server.getStream.
  destruct (Server.getOrCreateSession _ _ _) as [session sessions1].
  match goal with
  | |- context [Server.generateGeminiResponse ?k ?r ?m ?h ?c] =>
      destruct (Server.generateGeminiResponse k r m h c) as [[text|error] made]
  end; simpl.
  - rewrite streamFrames_closed_form, map_app.
    eexists _, _. split; [reflexivity |]. split; [|done].
    apply Forall_forall. unfold Spec.prefixes.
    intros f (e & -> & (k & -> & _)%list_elem_of_fmap)%list_elem_of_fmap.
    done.
  - exists [], (Server.Failure (Server.Error.message error) true). by repeat split.
Qed.

(** X14.  The RAG endpoint leaves the model alone exactly when the
    request has no [query] or nothing in the knowledge base matches it.
    Without a match it answers 200 with its fixed sentence and no
    sources; without [query] it answers 500. *)
Theorem postRag_no_match (key : string) (reply : Server.Reply)
    (query : option string) :
  (RagEndpoint.calls (RagEndpoint.postRag key reply query) = []
   ↔ query = None
     ∨ ∃ q, query = Some q ∧ Server.searchKnowledgeBase q = [])
  ∧ (∀ q, query = Some q → Server.searchKnowledgeBase q = [] →
          RagEndpoint.postRag key reply query
          = {| RagEndpoint.status := 200;
               RagEndpoint.body :=
                 RagEndpoint.Answer RagEndpoint.noRelevantInformation [];
               RagEndpoint.calls := [] |})
  ∧ (query = None →
     RagEndpoint.status (RagEndpoint.postRag key reply query) = 500).
Proof.
  split; [|split].
  - destruct query as [q|]; [|by split; [left |]].
    unfold RagEndpoint.postRag.
    destruct (Server.searchKnowledgeBase q) as [|r rs] eqn:Hres.
    + split; [|done]. right. by exists q.
    + simpl Nat.eqb. cbv iota.
      match goal with
      | |- context [Server.generateGeminiResponse ?k ?r ?m ?h ?c] =>
          pose proof (generate_calls_once k r m h c) as Hcalls;
          destruct (Server.generateGeminiResponse k r m h c)
            as [[text|error] made]
      end; simpl in *; subst made;
        (split; [done |]); intros [? | (q' & [= <-] & Hq)]; try done;
        congruence.
  - intros q -> Hnone. unfold RagEndpoint.postRag. by rewrite Hnone.
  - by intros ->.
Qed.

Lemma postRag_no_match_witness :
  RagEndpoint.postRag "key" (Server.Text "unused") (Some "")
  = {| RagEndpoint.status := 200;
       RagEndpoint.body :=
         RagEndpoint.Answer RagEndpoint.noRelevantInformation [];
       RagEndpoint.calls := [] |}.
Proof.
  destruct (postRag_no_match "key" (Server.Text "unused") (Some ""))
    as (_ & Hfixed & _).
  by apply (Hfixed "").
Defined.

(** X15.  When the knowledge base matches, the RAG endpoint calls the
    model once, without history, at temperature 0.5 and with a prompt
    that is the system prompt followed by the endpoint's own prompt, no
    second retrieval being made for it.  A text that comes back (or the
    canned fallback after a failure about the API key) is answered 200
    with the at most three sources in the order of the search; any
    other failure is answered 500 with its message. *)
Theorem postRag_match (key : string) (reply : Server.Reply) (query : string) :
  Server.searchKnowledgeBase query ≠ [] →
  RagEndpoint.calls (RagEndpoint.postRag key reply (Some query))
  = [ {| Server.apiKey := key;
         Server.modelName := "gemini-2.5-flash";
         Server.history := [];
         Server.generation :=
           {| Server.GenerationConfig.maxOutputTokens := 2048;
              Server.GenerationConfig.temperature := (5 # 10)%Q;
              Server.GenerationConfig.topP := (95 # 100)%Q;
              Server.GenerationConfig.topK := 40 |};
         Server.prompt :=
           Server.systemPrompt +:+ Server.newline +:+ Server.newline +:+
           RagEndpoint.ragPrompt query (Server.searchKnowledgeBase query) |} ]
  ∧ (RagEndpoint.status (RagEndpoint.postRag key reply (Some query)),
     RagEndpoint.body (RagEndpoint.postRag key reply (Some query)))
    = match reply with
      | Server.Text answer =>
          (200,
           RagEndpoint.Answer answer
             (RagEndpoint.sourceOf <$> Server.searchKnowledgeBase query))
      | Server.Throws error =>
          if Server.mentionsApiKey error then
            (200,
             RagEndpoint.Answer Server.apiKeyFallback
               (RagEndpoint.sourceOf <$> Server.searchKnowledgeBase query))
          else (500, RagEndpoint.ErrorBody (Server.Error.message error))
      end
  ∧ (length (RagEndpoint.sourceOf <$> Server.searchKnowledgeBase query) ≤ 3)%nat.
Proof.
  intros Hsome. unfold RagEndpoint.postRag.
  assert ((length (Server.searchKnowledgeBase query) =? 0)%nat = false) as ->.
  { by destruct (Server.searchKnowledgeBase query). }
  assert (length (RagEndpoint.sourceOf <$> Server.searchKnowledgeBase query)
          ≤ 3)%nat as Hlen.
  { rewrite length_fmap.
    unfold Server.searchKnowledgeBase, Server.searchIn, Js.slice0.
    rewrite length_take. lia. }
  match goal with
  | |- context [Server.generateGeminiResponse ?k ?r ?m ?h ?c] =>
      pose proof (generate_calls_once k r m h c) as Hcalls;
      pose proof (generate_result k r m h c) as Hresult;
      destruct (Server.generateGeminiResponse k r m h c) as [[text|error] made]
  end; simpl in Hcalls, Hresult; subst made;
    (split; [done |]); (split; [|done]);
    destruct reply as [answer|e]; simpl;
    try destruct (Server.mentionsApiKey e); by simplify_eq.
Qed.

Lemma postRag_match_witness :
  RagEndpoint.body
    (RagEndpoint.postRag "key" (Server.Text "It anchors certificates.")
       (Some "What does blockchain verification provide?"))
  = RagEndpoint.Answer "It anchors certificates."
      [ {| RagEndpoint.topic := "Blockchain Verification";
           RagEndpoint.relevance := 7 |} ].
Proof.
  destruct (postRag_match "key" (Server.Text "It anchors certificates.")
              "What does blockchain verification provide?")
    as (_ & Hbody & _); [by vm_compute |].
  apply (f_equal snd) in Hbody. exact Hbody.
Defined.

Lemma substringTo_length (n : nat) (s : string) :
  (String.length (Str.substringTo n s) ≤ n)%nat.
Proof.
  revert s. induction n as [|n IH]; intros [|c s]; simpl; try lia.
  specialize (IH s). lia.
Qed.

Lemma substringTo_idempotent (n : nat) (s : string) :
  Str.substringTo n (Str.substringTo n s) = Str.substringTo n s.
Proof.
  revert s. induction n as [|n IH]; intros [|c s]; simpl; try done.
  by rewrite IH.
Qed.

Lemma length_append (s t : string) :
  String.length (s +:+ t) = (String.length s + String.length t)%nat.
Proof.
  induction s as [|c s IH]; [done |].
  rewrite append_cons. simpl. by rewrite IH.
Qed.

(** X28.  The upload endpoint: without a file it answers 400 and
    touches neither the file system nor the model; when the file cannot
    be read it answers 500, leaves the file in place and does not call
    the model; once the file is read it is removed before the model is
    called, whatever the model then answers, and the model is called at
    most once, with a message built from the first 1000 characters of
    the file only and never longer than 1053 characters. *)
Theorem postUpload_behaviour (key : string) (reply : Server.Reply)
    (file : UploadEndpoint.File) (content : string)
    (error : Server.Error.t) (unlinked : option Server.Error.t)
    (read : string + Server.Error.t) :
  UploadEndpoint.postUpload key reply None read unlinked
  = {| UploadEndpoint.status := 400;
       UploadEndpoint.body := UploadEndpoint.ErrorBody (Some "No file uploaded");
       UploadEndpoint.fsCalls := [];
       UploadEndpoint.calls := [] |}
  ∧ UploadEndpoint.postUpload key reply (Some file) (inr error) unlinked
    = {| UploadEndpoint.status := 500;
         UploadEndpoint.body :=
           UploadEndpoint.ErrorBody (Server.Error.message error);
         UploadEndpoint.fsCalls :=
           [UploadEndpoint.ReadFile (UploadEndpoint.path file)];
         UploadEndpoint.calls := [] |}
  ∧ UploadEndpoint.fsCalls
      (UploadEndpoint.postUpload key reply (Some file) (inl content) unlinked)
    = [UploadEndpoint.ReadFile (UploadEndpoint.path file);
       UploadEndpoint.Unlink (UploadEndpoint.path file)]
  ∧ UploadEndpoint.calls
      (UploadEndpoint.postUpload key reply (Some file) (inl content) unlinked)
    = match unlinked with
      | Some _ => []
      | None =>
          [Server.chatCall key (UploadEndpoint.analysisPrompt content) []
             UploadEndpoint.config]
      end
  ∧ UploadEndpoint.analysisPrompt content
    = UploadEndpoint.analysisPrompt (Str.substringTo 1000 content)
  ∧ (String.length (UploadEndpoint.analysisPrompt content) ≤ 1053)%nat.
Proof.
  split; [done |]. split; [done |].
  assert (UploadEndpoint.fsCalls
            (UploadEndpoint.postUpload key reply (Some file) (inl content)
               unlinked)
          = [UploadEndpoint.ReadFile (UploadEndpoint.path file);
             UploadEndpoint.Unlink (UploadEndpoint.path file)]
          ∧ UploadEndpoint.calls
              (UploadEndpoint.postUpload key reply (Some file) (inl content)
                 unlinked)
            = match unlinked with
              | Some _ => []
              | None =>
                  [Server.chatCall key (UploadEndpoint.analysisPrompt content)
                     [] UploadEndpoint.config]
              end) as [Hfs Hcalls].
  { unfold UploadEndpoint.postUpload. destruct unlinked as [e|]; [done |].
    match goal with
    | |- context [Server.generateGeminiResponse ?k ?r ?m ?h ?c] =>
        pose proof (generate_calls_once k r m h c) as Hcalls;
        destruct (Server.generateGeminiResponse k r m h c)
          as [[text|err] made]
    end; simpl in *; by subst made. }
  split; [exact Hfs |]. split; [exact Hcalls |]. split.
  - unfold UploadEndpoint.analysisPrompt. by rewrite substringTo_idempotent.
  - unfold UploadEndpoint.analysisPrompt. rewrite !length_append.
    pose proof (substringTo_length 1000 content).
    assert (String.length Server.newline = 1%nat) as -> by reflexivity.
    assert (String.length "..." = 3%nat) as -> by reflexivity.
    assert (String.length "Analyze this file content and provide a summary:"
            = 48%nat) as -> by reflexivity.
    lia.
Qed.

End Endpoints.

(** ** The prompt *)

Section Prompt.

Lemma startsWith_append (p s : string) : Str.startsWith p (p +:+ s) = true.
Proof.
  induction p as [|c p IH]; [done |].
  rewrite append_cons. simpl. by rewrite bool_decide_eq_true_2, IH.
Qed.

Lemma startsWith_append_l (sub s t : string) :
  Str.startsWith sub s = true → Str.startsWith sub (s +:+ t) = true.
Proof.
  revert s. induction sub as [|c sub IH]; intros s Hs; [done |].
  destruct s as [|c' s]; [done |].
  rewrite append_cons. simpl in *.
  apply andb_true_iff in Hs as [-> Hs]. by rewrite IH.
Qed.

Lemma includes_unfold (s sub : string) :
  Str.includes s sub
  = Str.startsWith sub s
    || match s with
       | EmptyString => false
       | String _ s' => Str.includes s' sub
       end.
Proof. by destruct s. Qed.

Lemma includes_here (sub s : string) : Str.includes (sub +:+ s) sub = true.
Proof. by rewrite includes_unfold, startsWith_append. Qed.

Lemma includes_append_r (a s sub : string) :
  Str.includes s sub = true → Str.includes (a +:+ s) sub = true.
Proof.
  intros Hs. induction a as [|c a IH]; [done |].
  rewrite append_cons, includes_unfold, IH. apply orb_true_r.
Qed.

Lemma includes_append_l (s t sub : string) :
  Str.includes s sub = true → Str.includes (s +:+ t) sub = true.
Proof.
  induction s as [|c s IH]; intros Hs.
  - rewrite includes_unfold in Hs. rewrite orb_false_r in Hs.
    destruct sub; [|done]. by rewrite includes_unfold.
  - rewrite includes_unfold in Hs. rewrite append_cons, includes_unfold.
    apply orb_true_iff in Hs as [Hs | Hs].
    + rewrite <- append_cons, (startsWith_append_l _ _ _ Hs). done.
    + rewrite (IH Hs). apply orb_true_r.
Qed.

Lemma includes_refl (s : string) : Str.includes s s = true.
Proof.
  rewrite <- (append_empty_r s) at 1. apply includes_here.
Qed.

Lemma includes_join (sep w : string) (ws : list string) :
  w ∈ ws → Str.includes (Str.join sep ws) w = true.
Proof.
  induction ws as [|v ws IH]; [by intros ?%not_elem_of_nil |].
  intros Hin. destruct ws as [|v' ws].
  - apply list_elem_of_singleton in Hin as ->. apply includes_refl.
  - rewrite join_cons by done.
    apply elem_of_cons in Hin as [-> | Hin]; [apply includes_here |].
    by apply includes_append_r, includes_append_r, IH.
Qed.

(** X16.  Without retrieval the prompt is the system prompt, an empty
    line and the message as it came: this is so when the request does
    not switch RAG on and when the knowledge base has nothing for the
    message. *)
Theorem prompt_without_rag (key message : string)
    (history : list Server.Content) (config : Server.Config.t) :
  Server.Config.ragEnabled config ≠ Some true
  ∨ Server.searchKnowledgeBase message = [] →
  Server.prompt (Server.chatCall key message history config)
  = Server.systemPrompt +:+ Server.newline +:+ Server.newline +:+ message.
Proof.
  intros Hoff. unfold Server.chatCall, Server.enhancedPrompt.
  cbn [Server.prompt].
  destruct (Server.Config.ragEnabled config) as [[|]|]; try done.
  destruct Hoff as [? | ->]; done.
Qed.

Lemma prompt_without_rag_witness :
  Server.prompt
    (Server.chatCall "key" "hello" []
       {| Server.Config.model := None; Server.Config.maxTokens := None;
          Server.Config.temperature := None;
          Server.Config.ragEnabled := Some true |})
  = Server.systemPrompt +:+ Server.newline +:+ Server.newline +:+ "hello".
Proof. apply prompt_without_rag. right. reflexivity. Defined.

(** X17.  With RAG switched on, every entry that the search returns
    for the message is in the prompt, as its topic, a colon and its
    text; so is the message, and the prompt begins with the system
    prompt. *)
Theorem prompt_contains_snippets (key message : string)
    (history : list Server.Content) (config : Server.Config.t)
    (r : Server.Result.t) :
  Server.Config.ragEnabled config = Some true →
  r ∈ Server.searchKnowledgeBase message →
  Str.includes (Server.prompt (Server.chatCall key message history config))
    (Server.Result.topic r +:+ ": " +:+ Server.Result.content r) = true
  ∧ Str.includes (Server.prompt (Server.chatCall key message history config))
      message = true
  ∧ Str.startsWith Server.systemPrompt
      (Server.prompt (Server.chatCall key message history config)) = true.
Proof.
  intros Hon Hr.
  assert (Server.prompt (Server.chatCall key message history config)
          = Server.systemPrompt +:+ Server.newline +:+ Server.newline +:+
            Server.ragPrompt message (Server.searchKnowledgeBase message))
    as ->.
  { unfold Server.chatCall, Server.enhancedPrompt. cbn [Server.prompt].
    rewrite Hon.
    destruct (Server.searchKnowledgeBase message);
      [by apply not_elem_of_nil in Hr | done]. }
  generalize Server.systemPrompt as sys. intros sys.
  split; [|split].
  - do 3 apply includes_append_r. unfold Server.ragPrompt.
    do 7 apply includes_append_r. apply includes_append_l.
    apply includes_join. apply list_elem_of_fmap. by exists r.
  - do 3 apply includes_append_r. unfold Server.ragPrompt.
    do 2 apply includes_append_r. apply includes_here.
  - apply startsWith_append.
Qed.

Lemma prompt_contains_snippets_witness :
  Str.includes
    (Server.prompt
       (Server.chatCall "key" "Is there a proof?" []
          {| Server.Config.model := None; Server.Config.maxTokens := None;
             Server.Config.temperature := None;
             Server.Config.ragEnabled := Some true |}))
    "Is there a proof?" = true.
Proof.
  destruct (Server.searchKnowledgeBase "Is there a proof?") as [|r rs] eqn:Hr;
    [by vm_compute in Hr |].
  apply (prompt_contains_snippets "key" "Is there a proof?" []
           {| Server.Config.model := None; Server.Config.maxTokens := None;
              Server.Config.temperature := None;
              Server.Config.ragEnabled := Some true |} r);
    [reflexivity | rewrite Hr; left].
Defined.

End Prompt.

(** ** The stand-alone server's answers *)

Section SimpleAnswers.

(** X18.  [server.js] hands a non-empty history to the model as it is,
    together with the project context as system instruction, in one
    call; when a text comes back it answers 200, and the text it sends
    is never empty: an empty one is replaced by a fixed sentence. *)
Theorem simple_postChat_answers (context key text : string)
    (turn : Server.Content) (history : list Server.Content) :
  SimpleServer.postChat context key (Server.Text text) (Some (turn :: history))
  = ({| SimpleServer.status := 200;
        SimpleServer.body :=
          SimpleServer.TextBody
            (if bool_decide (text = "")
             then "I was unable to generate a response." else text) |},
     [ {| SimpleServer.apiKey := key;
          SimpleServer.model := "gemini-2.5-flash";
          SimpleServer.contents := turn :: history;
          SimpleServer.systemInstruction := context |} ])
  ∧ (if bool_decide (text = "")
     then "I was unable to generate a response." else text) ≠ "".
Proof.
  unfold SimpleServer.postChat. simpl.
  destruct text as [|c text]; simpl; by split.
Qed.

End SimpleAnswers.

(** ** The client against the server *)

Section ClientServer.

Implicit Types (sessions : gmap string Server.Session).

Lemma orElse_same (t : string) :
  Api.orElse (Some t) (Api.orElse (Some t) (Some t)) = Some t.
Proof. by destruct t. Qed.

(** X19.  What [sendMessage] makes of the answer of [POST /api/chat]:
    the text of the model, the canned fallback after a failure about the
    API key, and the error ['API Error: 500'] after any other failure
    and for a request without a message. *)
Theorem sendMessage_of_postChat (key : string) (d : Server.Dates)
    (reply : Server.Reply) (req : Server.ChatRequest.t) sessions :
  Api.sendMessage
    (Api.Responded
       (Api.ofChat (Server.response (Server.postChat key d reply req sessions))))
  = match Server.ChatRequest.message req, reply with
    | Some _, Server.Text text => inl (Some text)
    | Some _, Server.Throws error =>
        if Server.mentionsApiKey error then inl (Some Server.apiKeyFallback)
        else inr {| Server.Error.message := Some "API Error: 500" |}
    | None, _ => inr {| Server.Error.message := Some "API Error: 500" |}
    end.
Proof.
  unfold Server.postChat.
  destruct (Server.ChatRequest.message req) as [message|]; [|done].
  destruct (Server.getOrCreateSession _ _ _) as [session sessions1].
  unfold Server.generateGeminiResponse.
  destruct reply as [text|error].
  - by destruct text.
  - by destruct (Server.mentionsApiKey error).
Qed.

(** What the client sees of a RAG answer. *)
Lemma queryRAG_of_postRag (key : string) (reply : Server.Reply) (q : string) :
  Ui.ragShown
    (Api.queryRAG true
       (Api.Responded (Api.ofRag (RagEndpoint.postRag key reply (Some q)))))
  = if bool_decide (Server.searchKnowledgeBase q = [])
    then RagEndpoint.noRelevantInformation
    else match (Server.generateGeminiResponse key reply q []
                  Server.Config.empty).1 with
         | inl answer => Server.orString (Some answer) "RAG query completed."
         | inr _ => "RAG query completed."
         end.
Proof.
  unfold RagEndpoint.postRag.
  destruct (Server.searchKnowledgeBase q) as [|r rs] eqn:Hres; [done |].
  rewrite bool_decide_eq_false_2 by done. simpl Nat.eqb. cbv iota.
  rewrite (generate_result key reply q).
  match goal with
  | |- context [Server.generateGeminiResponse ?k ?r ?m ?h ?c] =>
      pose proof (generate_result k r m h c) as Hresult;
      destruct (Server.generateGeminiResponse k r m h c) as [[text|error] made]
  end; simpl in Hresult; by rewrite <- Hresult.
Qed.

(** X20.  A [/rag] message never ends in an error on the screen: with
    RAG switched off, with the server out of reach and with a failure
    that the server answers 500 the window shows 'RAG query
    completed.'; with nothing found it shows the server's fixed
    sentence; otherwise it shows the model's answer. *)
Theorem slash_rag_shown (key : string) (reply : Server.Reply) (q : string)
    (fetched : Api.Fetched) (error : Server.Error.t) :
  Ui.ragShown (Api.queryRAG false fetched) = "RAG query completed."
  ∧ Ui.ragShown (Api.queryRAG true (Api.Rejected error))
    = "RAG query completed."
  ∧ Ui.ragShown
      (Api.queryRAG true
         (Api.Responded (Api.ofRag (RagEndpoint.postRag key reply (Some q)))))
    = (if bool_decide (Server.searchKnowledgeBase q = [])
       then RagEndpoint.noRelevantInformation
       else match reply with
            | Server.Text answer =>
                Server.orString (Some answer) "RAG query completed."
            | Server.Throws e =>
                if Server.mentionsApiKey e then Server.apiKeyFallback
                else "RAG query completed."
            end).
Proof.
  split; [done |]. split; [done |].
  rewrite queryRAG_of_postRag, generate_result.
  case_bool_decide; [done |].
  destruct reply as [answer|e]; [done |].
  by destruct (Server.mentionsApiKey e).
Qed.

(** X21.  A message is a RAG query exactly when it is ['/rag'] alone or
    begins with ['/rag '], and the query is what follows those five
    characters (nothing for the bare command); so ['/rag'] alone asks
    the knowledge base the empty question. *)
Theorem route_rag (content query : string) :
  Ui.route content = Ui.Rag query
  ↔ (content = "/rag" ∧ query = "") ∨ content = "/rag " +:+ query.
Proof.
  split.
  - unfold Ui.route. destruct (Str.startsWith "/" content); [|done].
    destruct (Str.split content) as [|command tl] eqn:Hsplit; [done |].
    case_bool_decide; [done |]. case_bool_decide as Hrag; [|done].
    subst command. intros [= <-].
    apply split_head in Hsplit as [-> | [rest ->]]; [by left | by right].
  - intros [[-> ->] | ->]; [done |].
    unfold Ui.route.
    change ("/rag " +:+ query)
      with (String "/" (String "r" (String "a" (String "g" (String " " query))))).
    simpl.
    pose proof (split_nonempty query) as Hne.
    by destruct (Str.split query).
Qed.

End ClientServer.

(** ** What the chat window shows *)

Section Window.

Implicit Types (sessions : gmap string Server.Session).

Lemma showChunk_fresh (tempId : Z) (c : option string)
    (prev : list Ui.Message) :
  Forall (λ m, Ui.id m ≠ tempId) prev →
  Ui.showChunk tempId c prev
  = prev ++ [ {| Ui.id := tempId; Ui.content := c; Ui.isUser := false |} ].
Proof.
  intros Hfresh. unfold Ui.showChunk.
  assert (existsb (λ m, Ui.id m =? tempId) prev = false) as ->; [|done].
  induction Hfresh as [|m prev Hm _ IH]; [done |].
  simpl. rewrite IH. by destruct (Z.eqb_spec (Ui.id m) tempId).
Qed.

Lemma showChunk_update (tempId : Z) (c c0 : option string)
    (prev : list Ui.Message) :
  Forall (λ m, Ui.id m ≠ tempId) prev →
  Ui.showChunk tempId c
    (prev ++ [ {| Ui.id := tempId; Ui.content := c0; Ui.isUser := false |} ])
  = prev ++ [ {| Ui.id := tempId; Ui.content := c; Ui.isUser := false |} ].
Proof.
  intros Hfresh. unfold Ui.showChunk.
  assert (existsb (λ m, Ui.id m =? tempId)
            (prev ++ [ {| Ui.id := tempId; Ui.content := c0;
                          Ui.isUser := false |} ]) = true) as ->.
  { rewrite existsb_app. apply orb_true_iff. right.
    simpl. by rewrite Z.eqb_refl. }
  rewrite map_app. simpl. rewrite Z.eqb_refl. f_equal.
  induction Hfresh as [|m prev Hm _ IH]; [done |].
  simpl. rewrite IH. by destruct (Z.eqb_spec (Ui.id m) tempId).
Qed.

Lemma deliver_app (tempId : Z) (w : Ui.Window) (rs1 rs2 : list Api.Received) :
  Ui.deliver tempId w (rs1 ++ rs2)
  = Ui.deliver tempId (Ui.deliver tempId w rs1) rs2.
Proof. unfold Ui.deliver. apply fold_left_app. Qed.

(** Chunks that are not final leave one message, with the content of
    the last of them. *)
Lemma deliver_partials (tempId : Z) (w : Ui.Window)
    (rs : list Api.Received) (r : Api.Received) :
  Forall (λ m, Ui.id m ≠ tempId) (Ui.messages w) →
  Forall (λ r, Api.final r = false) rs →
  Api.final r = false →
  Ui.deliver tempId w (rs ++ [r])
  = {| Ui.messages :=
         Ui.messages w ++
         [ {| Ui.id := tempId; Ui.content := Api.chunk r;
              Ui.isUser := false |} ];
       Ui.isTyping := Ui.isTyping w;
       Ui.error := Ui.error w;
       Ui.chatHistory := Ui.chatHistory w |}.
Proof.
  intros Hfresh Hrs. revert r.
  induction rs as [|r' rs IH] using rev_ind; intros r Hr.
  - unfold Ui.deliver, Ui.onChunk. simpl. rewrite Hr.
    by rewrite showChunk_fresh.
  - rewrite Forall_app, Forall_singleton in Hrs. destruct Hrs as [Hrs Hr'].
    rewrite deliver_app, (IH Hrs r' Hr').
    unfold Ui.deliver, Ui.onChunk. simpl. rewrite Hr.
    by rewrite showChunk_update.
Qed.

(** A stream of chunks that are not final, closed by a final one. *)
Lemma deliver_stream (tempId : Z) (w : Ui.Window)
    (rs : list Api.Received) (f : Api.Received) :
  Forall (λ m, Ui.id m ≠ tempId) (Ui.messages w) →
  Forall (λ r, Api.final r = false) rs →
  Api.final f = true →
  Ui.deliver tempId w (rs ++ [f])
  = {| Ui.messages :=
         Ui.messages w ++
         match last rs with
         | Some r => [ {| Ui.id := tempId; Ui.content := Api.chunk r;
                          Ui.isUser := false |} ]
         | None => []
         end;
       Ui.isTyping := false;
       Ui.error := Ui.error w;
       Ui.chatHistory :=
         Ui.chatHistory w ++
         [ {| Ui.id := tempId; Ui.content := Api.chunk f;
              Ui.isUser := false |} ] |}.
Proof.
  intros Hfresh Hrs Hf. rewrite deliver_app.
  destruct rs as [|r' rs] using rev_ind.
  - unfold Ui.deliver, Ui.onChunk. simpl. rewrite Hf. by rewrite app_nil_r.
  - rewrite Forall_app, Forall_singleton in Hrs. destruct Hrs as [Hrs Hr'].
    rewrite (deliver_partials _ _ _ _ Hfresh Hrs Hr'), last_snoc.
    unfold Ui.deliver, Ui.onChunk. simpl. by rewrite Hf.
Qed.

Lemma received_prefixes (ws : list string) (m : nat) :
  Forall (λ r, Api.final r = false)
    (Api.ofChunk <$> (Client.chunkOf <$> Spec.prefixes ws m))
  ∧ last (Api.ofChunk <$> (Client.chunkOf <$> Spec.prefixes ws m))
    = match m with
      | O => None
      | S _ => Some {| Api.chunk := Some (Str.join " " (take m ws));
                       Api.final := false |}
      end.
Proof.
  split.
  - apply Forall_forall. unfold Spec.prefixes.
    intros r (c & -> & (e & -> & (k & -> & _)%list_elem_of_fmap)
                         %list_elem_of_fmap)%list_elem_of_fmap.
    done.
  - destruct m as [|m]; [done |].
    rewrite prefixes_S, !fmap_app. apply last_snoc.
Qed.

(** X22.  After a demo stream has run to its end the window shows the
    whole canned response as one new message, the typing indicator is
    off, and the response is in the chat history of the context. *)
Theorem demo_stream_displayed (tempId : Z) (w : Ui.Window)
    (message : string) (extra : nat) :
  Forall (λ m, Ui.id m ≠ tempId) (Ui.messages w) →
  Ui.deliver tempId w
    (Api.ofChunk <$>
       (Client.run (Client.demoStream message)
          (repeat Client.Elapse
             (S (length (Str.split (Client.pickResponse message))) + extra))).2)
  = {| Ui.messages :=
         Ui.messages w ++
         [ {| Ui.id := tempId;
              Ui.content := Some (Client.pickResponse message);
              Ui.isUser := false |} ];
       Ui.isTyping := false;
       Ui.error := Ui.error w;
       Ui.chatHistory :=
         Ui.chatHistory w ++
         [ {| Ui.id := tempId;
              Ui.content := Some (Client.pickResponse message);
              Ui.isUser := false |} ] |}.
Proof.
  intros Hfresh. unfold Client.demoStream.
  rewrite client_run_complete. simpl. unfold Spec.simulated.
  set (text := Client.pickResponse message).
  rewrite map_app, fmap_app. simpl.
  destruct (received_prefixes (Str.split text) (length (Str.split text)))
    as [Hpartial Hlast].
  rewrite (deliver_stream _ _ _ _ Hfresh Hpartial) by done.
  rewrite Hlast. pose proof (split_length text) as Hn.
  destruct (length (Str.split text)) as [|n] eqn:Hlen; [lia |].
  rewrite <- Hlen, firstn_all, join_split. done.
Qed.

Lemma demo_stream_displayed_witness :
  Ui.messages
    (Ui.deliver 7
       {| Ui.messages := [ {| Ui.id := 1; Ui.content := Some "Welcome";
                              Ui.isUser := false |} ];
          Ui.isTyping := true; Ui.error := None; Ui.chatHistory := [] |}
       (Api.ofChunk <$>
          (Client.run (Client.demoStream "rag")
             (repeat Client.Elapse
                (S (length (Str.split (Client.pickResponse "rag"))) + 0))).2))
  = [ {| Ui.id := 1; Ui.content := Some "Welcome"; Ui.isUser := false |};
      {| Ui.id := 7; Ui.content := Some Client.rag; Ui.isUser := false |} ].
Proof.
  rewrite (demo_stream_displayed 7 _ "rag" 0); [reflexivity |].
  repeat constructor. discriminate.
Defined.

Lemma onmessage_frames (es : list Spec.StreamEvent) (text : string) :
  Forall (λ e, Spec.isFinal e = false) es →
  Api.onmessage
    (Api.ofFrame <$> ((Server.frameOf <$> es) ++ [Server.Data text true]))
  = (Api.ofChunk <$> (Client.chunkOf <$> es))
    ++ [ {| Api.chunk := Some text; Api.final := true |} ].
Proof.
  induction 1 as [|e es He _ IH]; [done |].
  change (Api.onmessage
            (Api.ofFrame <$>
               ((Server.frameOf <$> e :: es) ++ [Server.Data text true])))
    with (if Spec.isFinal e
          then [ {| Api.chunk := Some (Spec.partialContent e);
                    Api.final := true |} ]
          else {| Api.chunk := Some (Spec.partialContent e);
                  Api.final := false |}
               :: Api.onmessage
                    (Api.ofFrame <$>
                       ((Server.frameOf <$> es) ++ [Server.Data text true]))).
  rewrite He, IH. simpl. unfold Api.ofChunk at 2, Client.chunkOf at 2.
  simpl. by rewrite He.
Qed.

(** X23.  After the server's stream of a text the window shows the
    text without its last word (and nothing at all for a text of one
    word): the frame that carries the whole text is the final one, and
    the final chunk goes to the chat history of the context only. *)
Theorem server_stream_displayed (tempId : Z) (w : Ui.Window)
    (key : string) (d : Server.Dates) (text message : string)
    (sessionId : option string) sessions :
  Forall (λ m, Ui.id m ≠ tempId) (Ui.messages w) →
  Ui.deliver tempId w
    (Api.onmessage
       (Api.ofFrame <$>
          (Server.getStream key d (Server.Text text) message sessionId
             sessions).1.1))
  = {| Ui.messages :=
         Ui.messages w ++
         match length (Str.split text) with
         | S (S n) =>
             [ {| Ui.id := tempId;
                  Ui.content :=
                    Some (Str.join " " (take (S n) (Str.split text)));
                  Ui.isUser := false |} ]
         | _ => []
         end;
       Ui.isTyping := false;
       Ui.error := Ui.error w;
       Ui.chatHistory :=
         Ui.chatHistory w ++
         [ {| Ui.id := tempId; Ui.content := Some text;
              Ui.isUser := false |} ] |}.
Proof.
  intros Hfresh. unfold Server.getStream.
  destruct (Server.getOrCreateSession _ _ _) as [session sessions1].
  unfold Server.generateGeminiResponse. simpl.
  rewrite streamFrames_closed_form, map_app. simpl.
  change (Server.frameOf (Spec.final text)) with (Server.Data text true).
  rewrite onmessage_frames.
  2:{ apply Forall_forall. unfold Spec.prefixes.
      by intros e (k & -> & _)%list_elem_of_fmap. }
  destruct (received_prefixes (Str.split text) (length (Str.split text) - 1))
    as [Hpartial Hlast].
  rewrite (deliver_stream _ _ _ _ Hfresh Hpartial) by done.
  rewrite Hlast. pose proof (split_length text) as Hn.
  destruct (length (Str.split text)) as [|[|n]]; [lia | done |].
  by replace (S (S n) - 1)%nat with (S n) by lia.
Qed.

Lemma server_stream_displayed_witness :
  Ui.messages
    (Ui.deliver 7
       {| Ui.messages := []; Ui.isTyping := true; Ui.error := None;
          Ui.chatHistory := [] |}
       (Api.onmessage
          (Api.ofFrame <$>
             (Server.getStream "key" Sample.dates (Server.Text "wipe it all")
                "how?" None ∅).1.1)))
  = [ {| Ui.id := 7; Ui.content := Some "wipe it"; Ui.isUser := false |} ].
Proof.
  rewrite (server_stream_displayed 7 _ "key" Sample.dates "wipe it all" "how?"
             None ∅); [reflexivity | constructor].
Defined.

(** X24.  With streaming switched off the answer is handed over as one
    final chunk, so the window does not show it: it only reaches the
    chat history of the context, and the typing indicator goes off. *)
Theorem unstreamed_answer_not_displayed (tempId : Z) (w : Ui.Window)
    (fetched : Api.Fetched) (rs : list Api.Received) :
  Api.streamMessageOff fetched = inl rs →
  ∃ c,
    Api.sendMessage fetched = inl c
    ∧ Ui.deliver tempId w rs
      = {| Ui.messages := Ui.messages w;
           Ui.isTyping := false;
           Ui.error := Ui.error w;
           Ui.chatHistory :=
             Ui.chatHistory w ++
             [ {| Ui.id := tempId; Ui.content := c; Ui.isUser := false |} ] |}.
Proof.
  unfold Api.streamMessageOff.
  destruct (Api.sendMessage fetched) as [c|e]; [|done].
  intros [= <-]. by exists c.
Qed.

Lemma unstreamed_answer_not_displayed_witness :
  Ui.messages
    (Ui.deliver 7
       {| Ui.messages := []; Ui.isTyping := true; Ui.error := None;
          Ui.chatHistory := [] |}
       [ {| Api.chunk := Some "done"; Api.final := true |} ])
  = [].
Proof.
  destruct (unstreamed_answer_not_displayed 7
              {| Ui.messages := []; Ui.isTyping := true; Ui.error := None;
                 Ui.chatHistory := [] |}
              (Api.Responded
                 (Api.ofChat
                    (Server.response
                       (Server.postChat "key" Sample.dates (Server.Text "done")
                          Sample.hello ∅))))
              [ {| Api.chunk := Some "done"; Api.final := true |} ])
    as (c & _ & ->); reflexivity.
Defined.

(** X25.  When the stream endpoint fails, the client gets one final
    chunk without content: the window shows neither a message nor an
    error, the typing indicator goes off, and the error's text is
    lost. *)
Theorem failed_stream_shows_nothing (tempId : Z) (w : Ui.Window)
    (key : string) (d : Server.Dates) (error : Server.Error.t)
    (message : string) (sessionId : option string) sessions :
  Server.mentionsApiKey error = false →
  Ui.deliver tempId w
    (Api.onmessage
       (Api.ofFrame <$>
          (Server.getStream key d (Server.Throws error) message sessionId
             sessions).1.1))
  = {| Ui.messages := Ui.messages w;
       Ui.isTyping := false;
       Ui.error := Ui.error w;
       Ui.chatHistory :=
         Ui.chatHistory w ++
         [ {| Ui.id := tempId; Ui.content := None; Ui.isUser := false |} ] |}.
Proof.
  intros Hkey. unfold Server.getStream.
  destruct (Server.getOrCreateSession _ _ _) as [session sessions1].
  unfold Server.generateGeminiResponse. by rewrite Hkey.
Qed.

Lemma failed_stream_shows_nothing_witness :
  Ui.deliver 7
    {| Ui.messages := []; Ui.isTyping := true; Ui.error := None;
       Ui.chatHistory := [] |}
    (Api.onmessage
       (Api.ofFrame <$>
          (Server.getStream "key" Sample.dates (Server.Throws Sample.networkDown)
             "how?" None ∅).1.1))
  = {| Ui.messages := []; Ui.isTyping := false; Ui.error := None;
       Ui.chatHistory :=
         [ {| Ui.id := 7; Ui.content := None; Ui.isUser := false |} ] |}.
Proof.
  rewrite (failed_stream_shows_nothing 7
             {| Ui.messages := []; Ui.isTyping := true; Ui.error := None;
                Ui.chatHistory := [] |}
             "key" Sample.dates Sample.networkDown "how?" None ∅);
    reflexivity.
Defined.

End Window.

(** ** The fallback stream and the sidebar *)

Section Fallback.

Lemma connectionRun_app (message : string) (c : Client.Connection)
    (evs1 evs2 : list Client.ConnectionEvent) :
  Client.connectionRun message c (evs1 ++ evs2)
  = ((Client.connectionRun message
        (Client.connectionRun message c evs1).1 evs2).1,
     (Client.connectionRun message c evs1).2
     ++ (Client.connectionRun message
           (Client.connectionRun message c evs1).1 evs2).2).
Proof.
  revert c. induction evs1 as [|ev evs1 IH]; intros c; simpl.
  - by destruct (Client.connectionRun message c evs2).
  - destruct (Client.connectionStep message c ev) as [c1 out1].
    rewrite IH. destruct (Client.connectionRun message c1 evs1) as [c2 out2].
    simpl. destruct (Client.connectionRun message c2 evs2) as [c3 out3].
    simpl. by rewrite app_assoc.
Qed.

(** Once the source is closed it stays closed. *)
Lemma connectionStep_closed (message : string) (c : Client.Connection)
    (ev : Client.ConnectionEvent) :
  Client.source c = false →
  Client.source (Client.connectionStep message c ev).1 = false.
Proof.
  intros Hc. destruct ev; simpl.
  - by rewrite Hc.
  - destruct (Client.fallback c) as [st|]; [|done].
    by destruct (if Client.interval st then Client.tick st else (st, [])).
  - done.
Qed.

Lemma connectionRun_closed (message : string) (c : Client.Connection)
    (evs : list Client.ConnectionEvent) :
  Client.source c = false →
  Client.source (Client.connectionRun message c evs).1 = false.
Proof.
  revert c. induction evs as [|ev evs IH]; intros c Hc; [done |].
  simpl. pose proof (connectionStep_closed message c ev Hc) as Hstep.
  destruct (Client.connectionStep message c ev) as [c1 out1].
  specialize (IH c1 Hstep).
  by destruct (Client.connectionRun message c1 evs).
Qed.

(** With the source closed the returned cleanup is a step that changes
    nothing. *)
Lemma returnedCleanup_closed (message : string) (c : Client.Connection)
    (evs : list Client.ConnectionEvent) :
  Client.source c = false →
  Client.connectionRun message c (Client.ReturnedCleanup :: evs)
  = Client.connectionRun message c evs.
Proof.
  destruct c as [src fb]. simpl. intros ->.
  by destruct (Client.connectionRun message _ evs).
Qed.

(** The failure of the source starts the demo stream. *)
Lemma connectionRun_error (message : string)
    (evs : list Client.ConnectionEvent) :
  Client.connectionRun message Client.connected (Client.SourceError :: evs)
  = Client.connectionRun message
      {| Client.source := false;
         Client.fallback := Some (Client.demoStream message) |} evs.
Proof. simpl. by destruct (Client.connectionRun message _ evs). Qed.

(** The timer of the fallback runs as the demo stream does. *)
Lemma connectionRun_timer (message : string) (src : bool)
    (st : Client.Stream) (k : nat) :
  (Client.connectionRun message
     {| Client.source := src; Client.fallback := Some st |}
     (repeat Client.TimerElapse k)).2
  = (Client.run st (repeat Client.Elapse k)).2.
Proof.
  revert st. induction k as [|k IH]; intros st; [done |].
  simpl. destruct (if Client.interval st then Client.tick st else (st, []))
    as [st1 out1].
  specialize (IH st1).
  destruct (Client.connectionRun _ _ _) as [c2 out2].
  destruct (Client.run st1 _) as [st2 out2']. simpl in *. by subst.
Qed.

(** X26.  The cleanup that [streamMessage] returned has no hold on the
    fallback stream that [onerror] started: once the source has failed,
    invoking it at any moment changes nothing in what is delivered, and
    a fallback left to run delivers the whole canned response even
    when the cleanup was invoked right after the failure. *)
Theorem returned_cleanup_is_ineffective (message : string)
    (c : Client.Connection) (evs1 evs2 : list Client.ConnectionEvent)
    (extra : nat) :
  Client.source c = false →
  (Client.connectionRun message c (evs1 ++ Client.ReturnedCleanup :: evs2)).2
  = (Client.connectionRun message c (evs1 ++ evs2)).2
  ∧ (Client.connectionRun message Client.connected
       (Client.SourceError :: Client.ReturnedCleanup
        :: repeat Client.TimerElapse
             (S (length (Str.split (Client.pickResponse message))) + extra))).2
    = Client.chunkOf <$> Spec.simulated (Client.pickResponse message).
Proof.
  intros Hc. split.
  - rewrite !connectionRun_app.
    pose proof (connectionRun_closed message c evs1 Hc) as Hclosed.
    by rewrite (returnedCleanup_closed _ _ _ Hclosed).
  - rewrite connectionRun_error, returnedCleanup_closed by done.
    rewrite connectionRun_timer. unfold Client.demoStream.
    by rewrite client_run_complete.
Qed.

Lemma returned_cleanup_is_ineffective_witness :
  (Client.connectionRun "rag"
     {| Client.source := false;
        Client.fallback := Some (Client.demoStream "rag") |}
     ([Client.TimerElapse] ++ Client.ReturnedCleanup :: [Client.TimerElapse])).2
  = (Client.connectionRun "rag"
       {| Client.source := false;
          Client.fallback := Some (Client.demoStream "rag") |}
       ([Client.TimerElapse] ++ [Client.TimerElapse])).2.
Proof.
  apply (returned_cleanup_is_ineffective "rag"
           {| Client.source := false;
              Client.fallback := Some (Client.demoStream "rag") |}
           [Client.TimerElapse] [Client.TimerElapse] 0).
  reflexivity.
Defined.

Lemma includes_empty (s : string) : Str.includes s "" = true.
Proof. by destruct s. Qed.

(** X27.  The search box of the sidebar: an empty term shows every
    conversation, any term shows a selection of the conversations in
    their order, and the case of the letters in the term does not
    matter. *)
Theorem sidebar_search (searchTerm : string) (titles : list string) :
  Ui.filteredConversations "" titles = titles
  ∧ Ui.filteredConversations searchTerm titles `sublist_of` titles
  ∧ Ui.filteredConversations (Str.toLowerCase searchTerm) titles
    = Ui.filteredConversations searchTerm titles.
Proof.
  unfold Ui.filteredConversations. split; [|split].
  - induction titles as [|t titles IH]; [done |].
    rewrite filter_cons_True by apply includes_empty. by rewrite IH.
  - apply sublist_filter.
  - by rewrite toLowerCase_idempotent.
Qed.

End Fallback.

(** ** Worked examples *)

Example split_two : Str.split "a b" = ["a"; "b"].
Proof. reflexivity. Qed.

Example split_gap : Str.split "a  b" = ["a"; ""; "b"].
Proof. reflexivity. Qed.

Example includes_mid : Str.includes "my blockchain" "block" = true.
Proof. reflexivity. Qed.

Example lower_mixed : Str.toLowerCase "NIST 800-88" = "nist 800-88".
Proof. reflexivity. Qed.

Example search_blockchain :
  map (fun r => (Server.Result.topic r, Server.Result.relevance r))
      (Server.searchKnowledgeBase "What does blockchain verification provide?")
  = [("Blockchain Verification", 7)].
Proof. vm_compute. reflexivity. Qed.

Example search_tie_order :
  map (fun r => (Server.Result.topic r, Server.Result.relevance r))
      (Server.searchKnowledgeBase "sanitization and certificate process")
  = [("Data Wiping Process", 2); ("NIST 800-88", 1); ("Blockchain Verification", 1)].
Proof. vm_compute. reflexivity. Qed.

Example search_no_match : Server.searchKnowledgeBase "good morning" = [].
Proof. reflexivity. Qed.

Example search_topic_only :
  map (fun r => (Server.Result.topic r, Server.Result.relevance r))
      (Server.searchKnowledgeBase "tell me about the Environmental Impact")
  = [("Environmental Impact", 7)].
Proof. vm_compute. reflexivity. Qed.

Example demo_stream_rag :
  (Client.run (Client.demoStream "rag") (repeat Client.Elapse 3)).2
  = [ {| Client.content := "Our"; Client.done := false |};
      {| Client.content := "Our RAG"; Client.done := false |};
      {| Client.content := "Our RAG (Retrieval"; Client.done := false |} ].
Proof. reflexivity. Qed.

Example stream_frames_hello :
  Server.streamFrames "hello world"
  = [Server.Data "hello" false; Server.Data "hello world" true].
Proof. reflexivity. Qed.
